(** * memray: the tracking API ([src/memray/_memray/tracking_api.h])

    A shallow embedding of [NativeTrace] (the native stack capture) and of
    the [Tracker] singleton interface, with the properties of the
    specification stated over them. *)

From Stdlib Require Import ZArith Lia.
From stdpp Require Import base option list strings gmap.

Local Open Scope Z_scope.

(** ** Machine integers

    [size_t] is a 64-bit unsigned integer and [int] a 32-bit signed one.
    Both are carried as [Z]; the conversions the header performs
    implicitly are written out. *)

Definition INT_MAX : Z := 2 ^ 31 - 1.

Definition to_size_t (z : Z) : Z := z mod 2 ^ 64.

Definition to_int (z : Z) : Z := (z + 2 ^ 31) mod 2 ^ 32 - 2 ^ 31.

(** [frame_id_t] comes from [records.h]; only its values are moved around
    here, never computed with. *)
Definition frame_id_t : Type := Z.

(** ** The platform unwinding facility (libunwind)

    The header calls into libunwind. What the library observes is the
    native stack of the calling thread, innermost frame first (callee to
    caller), and every entry point reports a return code. [unw_step] is
    taken to succeed: positive while a caller frame remains, zero at the
    outermost frame. *)

Record Platform : Type := mkPlatform {
  innermost : frame_id_t;
  callers : list frame_id_t;
  unw_getcontext : Z;
  unw_init_local : Z;
  unw_get_reg : nat -> Z;
}.

Definition frames (p : Platform) : list frame_id_t := innermost p :: callers p.

Definition depth (p : Platform) : Z := Z.of_nat (length (frames p)).

(** [unw_backtrace(buffer, size)] stores at most [size] return addresses
    at the start of [buffer] and returns how many it stored. Writing past
    the end of the buffer has no defined result: [None]. *)
Definition unw_backtrace (p : Platform) (buffer : list frame_id_t) (size : Z)
  : option (Z * list frame_id_t) :=
  let n := (Z.to_nat size `min` length (frames p))%nat in
  if decide (n ≤ length buffer)%nat
  then Some (Z.of_nat n, take n (frames p) ++ drop n buffer)
  else None.

(** ** std::vector<ip_t> *)

Definition vector_size (v : list frame_id_t) : Z := Z.of_nat (length v).

Definition resize (n : Z) (v : list frame_id_t) : list frame_id_t :=
  take (Z.to_nat n) v ++ replicate (Z.to_nat n - length v)%nat 0.

(** Unchecked element access: defined only inside the vector. *)
Definition at_index (v : list frame_id_t) (i : Z) : option frame_id_t :=
  if decide (0 ≤ i) then v !! Z.to_nat i else None.

(** ** Thread-local state

    [MAX_SIZE] is the [thread_local] capacity; [cerr] the lines written to
    the diagnostic stream; [unwinds] records which unwinding routine of
    [NativeTrace] ran, oldest first. *)

Inductive Unwind : Type :=
| FastUnwind (capacity : Z)
| ExactUnwind.

Record Thread : Type := mkThread {
  MAX_SIZE : Z;
  cerr : list string;
  unwinds : list Unwind;
}.

Definition set_MAX_SIZE (m : Z) (ts : Thread) : Thread :=
  {| MAX_SIZE := m; cerr := cerr ts; unwinds := unwinds ts |}.

Definition warn (msg : string) (ts : Thread) : Thread :=
  {| MAX_SIZE := MAX_SIZE ts; cerr := cerr ts ++ [msg]; unwinds := unwinds ts |}.

Definition ran (u : Unwind) (ts : Thread) : Thread :=
  {| MAX_SIZE := MAX_SIZE ts; cerr := cerr ts; unwinds := unwinds ts ++ [u] |}.

(** ** class NativeTrace *)

Module NativeTrace.

Record t : Type := mk {
  d_size : Z;
  d_skip : Z;
  d_data : list frame_id_t;
}.

(** [NativeTrace() { d_data.resize(MAX_SIZE); }] *)
Definition new (ts : Thread) : t :=
  {| d_size := 0; d_skip := 0; d_data := resize (MAX_SIZE ts) [] |}.

(** Base position of [begin()], a [std::reverse_iterator]. *)
Definition begin (nt : t) : Z := 0 + d_skip nt + d_size nt.

(** Base position of [end()]. *)
Definition end_ (nt : t) : Z := 0 + d_skip nt.

(** [operator[]]: the index is computed in [size_t]. *)
Definition index (nt : t) (i : Z) : option frame_id_t :=
  at_index (d_data nt) (to_size_t (d_skip nt + d_size nt - 1 - i)).

(** [int size() const { return d_size; }] *)
Definition size (nt : t) : Z := to_int (d_size nt).

(** [static int unwind(frame_id_t* data)] *)
Definition unwind (p : Platform) (ts : Thread) (data : list frame_id_t)
  : option (Z * Thread * list frame_id_t) :=
  match unw_backtrace p data (to_int (MAX_SIZE ts)) with
  | Some (n, data') => Some (n, ran (FastUnwind (MAX_SIZE ts)) ts, data')
  | None => None
  end.

(** The [do { ... } while (unw_step(&cursor))] loop of [exact_unwind];
    the cursor stands at frame number [i], whose address is [ip], with
    [rest] still above it. The step is the platform's successful one: an
    error return of [unw_step], on which the source loop goes on as
    well, is outside this model. *)
Fixpoint exact_unwind_loop (p : Platform) (i : nat) (ip : frame_id_t)
    (rest : list frame_id_t) (ts : Thread) (data : list frame_id_t)
  : Z * Thread * list frame_id_t :=
  if decide (unw_get_reg p i < 0)
  then (0, warn "WARNING: Failed to get instruction pointer" ts, data)
  else
    let data := data ++ [ip] in
    match rest with
    | [] => (vector_size data, ts, data)
    | next :: rest' => exact_unwind_loop p (S i) next rest' ts data
    end.

(** [size_t exact_unwind()] *)
Definition exact_unwind (p : Platform) (ts : Thread) (data : list frame_id_t)
  : Z * Thread * list frame_id_t :=
  let ts := ran ExactUnwind ts in
  if decide (unw_getcontext p < 0)
  then (0, warn "WARNING: Failed to initialize libunwind's context" ts, data)
  else if decide (unw_init_local p < 0)
  then (0, warn "WARNING: Failed to initialize libunwind's cursor" ts, data)
  else exact_unwind_loop p 0 (innermost p) (callers p) ts data.

(** [bool fill(size_t skip)] *)
Definition fill (p : Platform) (skip : Z) (ts : Thread) (nt : t)
  : option (bool * Thread * t) :=
  match unwind p ts (d_data nt) with
  | None => None
  | Some (n, ts, data) =>
    let size := to_size_t n in
    let '(size, ts, data) :=
      if decide (size = MAX_SIZE ts) then
        let data := resize 0 data in
        let '(size, ts, data) := exact_unwind p ts data in
        let m :=
          if decide (to_size_t (MAX_SIZE ts * 2) > size)
          then to_size_t (MAX_SIZE ts * 2) else size in
        (size, set_MAX_SIZE m ts, resize m data)
      else (size, ts, data) in
    let d_size := if decide (size > skip) then to_size_t (size - skip) else 0 in
    Some (bool_decide (d_size > 0), ts,
          {| d_size := d_size; d_skip := skip; d_data := data |})
  end.

(** Walking a reverse-iterator range [for (it = b; it != e; ++it) *it]:
    dereferencing reads the element just below the base, incrementing
    lowers the base. Each visited element is the result of one access. *)
Fixpoint traverse (fuel : nat) (it e : Z) (data : list frame_id_t)
  : option (list (option frame_id_t)) :=
  if decide (it = e) then Some []
  else
    match fuel with
    | O => None
    | S fuel' =>
      match traverse fuel' (it - 1) e data with
      | Some rest => Some (at_index data (it - 1) :: rest)
      | None => None
      end
    end.

Definition iterate (fuel : nat) (nt : t) : option (list (option frame_id_t)) :=
  traverse fuel (begin nt) (end_ nt) (d_data nt).

End NativeTrace.

(** The contract of the specification: a capture is a fresh [NativeTrace]
    filled once. *)
Definition capture (p : Platform) (skip : Z) (ts : Thread)
  : option (bool * Thread * NativeTrace.t) :=
  NativeTrace.fill p skip ts (NativeTrace.new ts).

(** The frame count [fill] works with once the unwinding is over: the
    fast count, or the exact one when the fast count met the capacity. *)
Definition unwound (p : Platform) (ts : Thread) (data : list frame_id_t) : option Z :=
  match NativeTrace.unwind p ts data with
  | None => None
  | Some (n, ts1, data1) =>
    if decide (to_size_t n = MAX_SIZE ts1)
    then Some (NativeTrace.exact_unwind p ts1 (resize 0 data1)).1.1
    else Some (to_size_t n)
  end.

(** The count the fast unwind returns for a buffer that can take it. *)
Definition fast_count (p : Platform) (ts : Thread) : Z :=
  Z.of_nat (Z.to_nat (to_int (MAX_SIZE ts)) `min` length (frames p))%nat.

(** A platform on which every libunwind call succeeds. *)
Definition healthy (ip : frame_id_t) (cs : list frame_id_t) : Platform :=
  mkPlatform ip cs 0 0 (fun _ => 0).

(** A run of captures on one thread, each on the stack the thread has at
    that moment. *)
Fixpoint captures (cs : list (Platform * Z)) (ts : Thread) : option Thread :=
  match cs with
  | [] => Some ts
  | (p, skip) :: cs' =>
    match capture p skip ts with
    | Some (_, ts', _) => captures cs' ts'
    | None => None
    end
  end.

(** The specification's reading of skipping, at one stack, thread state
    and skip count: frame 0 of the skipped capture is frame [k] of the
    unskipped one. *)
Definition skip_shifts_index (p : Platform) (ts : Thread) (k : Z) : Prop :=
  ∀ ts1 nt1 b0 ts0 nt0,
    capture p k ts = Some (true, ts1, nt1) →
    capture p 0 ts = Some (b0, ts0, nt0) →
    NativeTrace.index nt1 0 = NativeTrace.index nt0 k.

(** ** class Tracker

    The header declares the singleton and defines inline only the five
    static forwarding entry points of the allocation hooks. Pointers and
    sizes are carried as [Z]; [hooks::Allocator] (from [hooks.h]) and
    [RawFrame] (from [records.h]) are carried as plain data. *)

Definition Allocator : Type := Z.

Record RawFrame : Type := mkRawFrame {
  function_name : string;
  filename : string;
  lineno : Z;
}.

(** What reaches the record sink. *)
Inductive SinkRecord : Type :=
| AllocationRecord (ptr size : Z) (func : Allocator)
| ThreadRecord (name : string)
| MemoryRecord (rss : Z).

(** Result of the entry points that return [PyObject*]. *)
Inductive PyResult : Type :=
| Py_None
| Py_Error.

Module Tracker.

(** The data members of one [Tracker] object that its creation fixes. *)
Record t : Type := mk {
  d_writer : nat;
  d_unwind_native_frames : bool;
  d_memory_interval : Z;
  d_follow_fork : bool;
}.

(** The process-wide state behind the static members: [d_instance] is
    the atomic instance pointer ([None] for null), [d_active] the atomic
    activation flag. [live_trackers] counts the [Tracker] objects
    constructed and not yet destroyed; [mirror] holds, per thread, the
    interpreter frames currently active on it, oldest first. *)
Record World : Type := mkWorld {
  d_instance : option t;
  d_active : bool;
  live_trackers : nat;
  sampler_running : bool;
  fork_hooks : bool;
  sink : list SinkRecord;
  sink_closed : bool;
  mirror : gmap nat (list RawFrame);
}.

(** Before any tracker was created. *)
Definition boot : World :=
  {| d_instance := None; d_active := false; live_trackers := 0;
     sampler_running := false; fork_hooks := false;
     sink := []; sink_closed := false; mirror := ∅ |}.

(** The inline entry points of the header. [getTracker] and the
    [...Impl] members are defined outside the header and are taken as
    they come. *)
Section EntryPoints.

Variable getTracker : World → option t.
Variable trackAllocationImpl : t → Z → Z → Allocator → World → World.
Variable trackDeallocationImpl : t → Z → Z → Allocator → World → World.
Variable invalidate_module_cache_impl : t → World → World.
Variable updateModuleCacheImpl : t → World → World.
Variable registerThreadNameImpl : t → string → World → World.

Definition trackAllocation (ptr size : Z) (func : Allocator) (w : World) : World :=
  match getTracker w with
  | Some tracker => trackAllocationImpl tracker ptr size func w
  | None => w
  end.

Definition trackDeallocation (ptr size : Z) (func : Allocator) (w : World) : World :=
  match getTracker w with
  | Some tracker => trackDeallocationImpl tracker ptr size func w
  | None => w
  end.

Definition invalidate_module_cache (w : World) : World :=
  match getTracker w with
  | Some tracker => invalidate_module_cache_impl tracker w
  | None => w
  end.

Definition updateModuleCache (w : World) : World :=
  match getTracker w with
  | Some tracker => updateModuleCacheImpl tracker w
  | None => w
  end.

Definition registerThreadName (name : string) (w : World) : World :=
  match getTracker w with
  | Some tracker => registerThreadNameImpl tracker name w
  | None => w
  end.

(** One call arriving from the allocation hooks. *)
Inductive HookCall : Type :=
| CallTrackAllocation (ptr size : Z) (func : Allocator)
| CallTrackDeallocation (ptr size : Z) (func : Allocator)
| CallInvalidateModuleCache
| CallUpdateModuleCache
| CallRegisterThreadName (name : string).

Definition hook (c : HookCall) (w : World) : World :=
  match c with
  | CallTrackAllocation ptr size func => trackAllocation ptr size func w
  | CallTrackDeallocation ptr size func => trackDeallocation ptr size func w
  | CallInvalidateModuleCache => invalidate_module_cache w
  | CallUpdateModuleCache => updateModuleCache w
  | CallRegisterThreadName name => registerThreadName name w
  end.

Definition hooks (cs : list HookCall) (w : World) : World :=
  foldl (fun w c => hook c w) w cs.

End EntryPoints.

(** Modelled from the spec: [Tracker::getTracker] is declared in the
    header and defined elsewhere. "lock-free read of the current
    instance pointer". *)
Definition getTracker (w : World) : option t := d_instance w.

(** Modelled from the spec: [Tracker::isActive] is declared in the
    header and defined elsewhere. It reads the activation flag. *)
Definition isActive (w : World) : bool := d_active w.

(** Storing [b] in the activation flag. *)
Definition set_active (b : bool) (w : World) : World :=
  {| d_instance := d_instance w; d_active := b;
     live_trackers := live_trackers w;
     sampler_running := sampler_running w; fork_hooks := fork_hooks w;
     sink := sink w; sink_closed := sink_closed w; mirror := mirror w |}.

(** Modelled from the spec: [Tracker::activate] is declared in the header
    and defined elsewhere. "they toggle a cheap atomic flag", without
    tearing down frame-tree or sink state. The life cycle resumes a
    paused tracker only: "Destroyed cannot transition back to Active; a
    fresh createTracker call is required", so with no instance nothing
    is activated. *)
Definition activate (w : World) : World :=
  match d_instance w with
  | Some _ => set_active true w
  | None => w
  end.

(** Modelled from the spec: [Tracker::deactivate] is declared in the
    header and defined elsewhere; the counterpart of [activate]. *)
Definition deactivate (w : World) : World := set_active false w.

(** Modelled from the spec: [Tracker::createTracker] is declared in the
    header and defined elsewhere. "fails if an instance already exists
    (returns the existing handle's error state rather than creating a
    second one). Installs fork-safety hooks and starts the
    BackgroundSampler if sample_interval > 0." The life cycle enters
    Active on create. *)
Definition createTracker (record_writer : nat) (native_traces : bool)
    (memory_interval : Z) (follow_fork : bool) (w : World) : PyResult * World :=
  match d_instance w with
  | Some _ => (Py_Error, w)
  | None =>
    let tracker :=
      {| d_writer := record_writer; d_unwind_native_frames := native_traces;
         d_memory_interval := memory_interval; d_follow_fork := follow_fork |} in
    (Py_None,
     {| d_instance := Some tracker; d_active := true;
        live_trackers := S (live_trackers w);
        sampler_running := bool_decide (0 < memory_interval);
        fork_hooks := true;
        sink := sink w; sink_closed := false; mirror := mirror w |})
  end.

(** Modelled from the spec: [Tracker::destroyTracker] is declared in
    the header and defined elsewhere. "stops the BackgroundSampler,
    flushes/closes the sink, releases the singleton. Idempotent". *)
Definition destroyTracker (w : World) : PyResult * World :=
  match d_instance w with
  | None => (Py_None, w)
  | Some _ =>
    (Py_None,
     {| d_instance := None; d_active := false;
        live_trackers := pred (live_trackers w);
        sampler_running := false; fork_hooks := fork_hooks w;
        sink := sink w; sink_closed := true; mirror := mirror w |})
  end.

Definition set_mirror (m : gmap nat (list RawFrame)) (w : World) : World :=
  {| d_instance := d_instance w; d_active := d_active w;
     live_trackers := live_trackers w;
     sampler_running := sampler_running w; fork_hooks := fork_hooks w;
     sink := sink w; sink_closed := sink_closed w; mirror := m |}.

(** The frames mirrored for thread [tid]. *)
Definition thread_frames (tid : nat) (w : World) : list RawFrame :=
  default [] (mirror w !! tid).

(** Modelled from the spec: [Tracker::pushFrame] is declared in the
    header and defined elsewhere. "Maintains, per thread, an ordered
    sequence of currently-active interpreter frames"; "Returns false
    when the singleton is not currently active". It is a non-static
    member: the singleton is active when an instance exists and its
    activation flag is set; with no instance there is nothing to push
    to. [tid] is the calling thread. *)
Definition pushFrame (tid : nat) (frame : RawFrame) (w : World) : bool * World :=
  match d_instance w with
  | Some _ =>
    if isActive w
    then (true, set_mirror (<[tid := thread_frames tid w ++ [frame]]> (mirror w)) w)
    else (false, w)
  | None => (false, w)
  end.

(** Modelled from the spec: [Tracker::popFrames] is declared in the
    header and defined elsewhere; under the same condition as
    [pushFrame] it drops the [count] most recent frames of the calling
    thread. *)
Definition popFrames (tid : nat) (count : Z) (w : World) : bool * World :=
  match d_instance w with
  | Some _ =>
    if isActive w
    then
      let fs := thread_frames tid w in
      (true, set_mirror (<[tid := take (length fs - Z.to_nat count) fs]> (mirror w)) w)
    else (false, w)
  | None => (false, w)
  end.

(** The calls of the life cycle and of the frame hook. *)
Inductive Call : Type :=
| CreateTracker (record_writer : nat) (native_traces : bool)
    (memory_interval : Z) (follow_fork : bool)
| DestroyTracker
| Activate
| Deactivate
| PushFrame (tid : nat) (frame : RawFrame)
| PopFrames (tid : nat) (count : Z).

Definition step (c : Call) (w : World) : World :=
  match c with
  | CreateTracker rw nt mi ff => (createTracker rw nt mi ff w).2
  | DestroyTracker => (destroyTracker w).2
  | Activate => activate w
  | Deactivate => deactivate w
  | PushFrame tid frame => (pushFrame tid frame w).2
  | PopFrames tid count => (popFrames tid count w).2
  end.

Definition run (cs : list Call) (w : World) : World :=
  foldl (fun w c => step c w) w cs.

End Tracker.

(** Implementations that hand one record to the sink, to exercise the
    entry points with. *)
Definition write (r : SinkRecord) (w : Tracker.World) : Tracker.World :=
  {| Tracker.d_instance := Tracker.d_instance w;
     Tracker.d_active := Tracker.d_active w;
     Tracker.live_trackers := Tracker.live_trackers w;
     Tracker.sampler_running := Tracker.sampler_running w;
     Tracker.fork_hooks := Tracker.fork_hooks w;
     Tracker.sink := Tracker.sink w ++ [r];
     Tracker.sink_closed := Tracker.sink_closed w;
     Tracker.mirror := Tracker.mirror w |}.

Definition write_allocation (_ : Tracker.t) (ptr size : Z) (func : Allocator)
  : Tracker.World → Tracker.World :=
  write (AllocationRecord ptr size func).

Definition write_thread_name (_ : Tracker.t) (name : string)
  : Tracker.World → Tracker.World :=
  write (ThreadRecord name).

Definition write_nothing (_ : Tracker.t) (w : Tracker.World) : Tracker.World := w.

(** The singleton invariant: one live [Tracker] object when the instance
    pointer is set, none when it is null. *)
Definition single_instance (w : Tracker.World) : Prop :=
  Tracker.live_trackers w
  = match Tracker.d_instance w with Some _ => 1%nat | None => 0%nat end.

(** ** Concrete runs

    The stack [10; 20; 30] has 10 innermost and 30 outermost. *)

Example capture_fast :
  capture (healthy 10 [20; 30]) 1 (mkThread 4 [] [])
  = Some (true, mkThread 4 [] [FastUnwind 4], NativeTrace.mk 2 1 [10; 20; 30; 0]).
Proof. reflexivity. Qed.

Example capture_truncated :
  capture (healthy 10 [20; 30]) 1 (mkThread 2 [] [])
  = Some (true, mkThread 4 [] [FastUnwind 2; ExactUnwind],
          NativeTrace.mk 2 1 [10; 20; 30; 0]).
Proof. reflexivity. Qed.

Example capture_skip_all :
  capture (healthy 10 [20; 30]) 3 (mkThread 4 [] [])
  = Some (false, mkThread 4 [] [FastUnwind 4], NativeTrace.mk 0 3 [10; 20; 30; 0]).
Proof. reflexivity. Qed.

Example capture_no_cursor :
  capture (mkPlatform 10 [20; 30] 0 (-1) (fun _ => 0)) 0 (mkThread 3 [] [])
  = Some (false,
          mkThread 6 ["WARNING: Failed to initialize libunwind's cursor"]
            [FastUnwind 3; ExactUnwind],
          NativeTrace.mk 0 0 [0; 0; 0; 0; 0; 0]).
Proof. reflexivity. Qed.

Example index_outermost_first :
  let nt := NativeTrace.mk 2 1 [10; 20; 30; 0] in
  NativeTrace.index nt 0 = Some 30 ∧ NativeTrace.index nt 1 = Some 20
  ∧ NativeTrace.iterate 2 nt = Some [Some 30; Some 20].
Proof. done. Qed.

Example stale_buffer_overflows :
  NativeTrace.fill (healthy 10 [20; 30]) 0 (mkThread 4 [] [])
    (NativeTrace.new (mkThread 2 [] [])) = None.
Proof. reflexivity. Qed.

Example life_cycle :
  Tracker.run
    [Tracker.CreateTracker 1 true 10 false;
     Tracker.PushFrame 7 (mkRawFrame "main" "app.py" 1);
     Tracker.CreateTracker 2 false 0 false;
     Tracker.Deactivate;
     Tracker.PushFrame 7 (mkRawFrame "f" "app.py" 9)]
    Tracker.boot
  = Tracker.mkWorld (Some (Tracker.mk 1 true 10 false)) false 1 true true [] false
      {[ 7%nat := [mkRawFrame "main" "app.py" 1] ]}.
Proof. reflexivity. Qed.

(** ** Machine-integer facts *)

Lemma to_size_t_id z : 0 ≤ z < 2 ^ 64 → to_size_t z = z.
Proof. intros H. unfold to_size_t. apply Z.mod_small. lia. Qed.

Lemma to_int_id z : - 2 ^ 31 ≤ z ≤ INT_MAX → to_int z = z.
Proof.
  unfold to_int, INT_MAX. intros H.
  rewrite Z.mod_small; lia.
Qed.

Lemma to_int_le z : 0 ≤ z → to_int z ≤ z.
Proof.
  intros H. unfold to_int.
  pose proof (Z.mod_le (z + 2 ^ 31) (2 ^ 32)) as Hle. lia.
Qed.

Lemma to_int_max z : to_int z ≤ INT_MAX.
Proof.
  unfold to_int, INT_MAX.
  pose proof (Z.mod_pos_bound (z + 2 ^ 31) (2 ^ 32)). lia.
Qed.

(** ** std::vector facts *)

Lemma resize_length n v : 0 ≤ n → vector_size (resize n v) = n.
Proof.
  intros H. unfold vector_size, resize.
  rewrite length_app, length_take, length_replicate. lia.
Qed.

Lemma resize_0 v : resize 0 v = [].
Proof. by destruct v. Qed.

Lemma resize_take n v (k : nat) :
  (k ≤ length v)%nat → Z.of_nat k ≤ n → take k (resize n v) = take k v.
Proof.
  intros Hk Hn. unfold resize.
  rewrite take_app_le by (rewrite length_take; lia).
  rewrite take_take. f_equal. lia.
Qed.

Lemma at_index_lookup v (i : nat) : at_index v (Z.of_nat i) = v !! i.
Proof.
  unfold at_index. rewrite decide_True by lia. by rewrite Nat2Z.id.
Qed.

(** ** The exact unwind *)

Lemma exact_unwind_loop_spec p rest : ∀ i ip ts data n ts' data',
  NativeTrace.exact_unwind_loop p i ip rest ts data = (n, ts', data') →
  MAX_SIZE ts' = MAX_SIZE ts ∧ unwinds ts' = unwinds ts ∧
  ((n = 0 ∧ cerr ts' = cerr ts ++ ["WARNING: Failed to get instruction pointer"])
   ∨ (n = vector_size data' ∧ data' = data ++ ip :: rest ∧ ts' = ts)).
Proof.
  induction rest as [|next rest IH]; intros i ip ts data n ts' data' E;
    simpl in E; case_decide.
  - inversion E; subst; simpl. split_and!; [done..|]. by left.
  - inversion E; subst. split_and!; [done..|]. by right.
  - inversion E; subst; simpl. split_and!; [done..|]. by left.
  - apply IH in E as (HM & HU & [Hf | (Hn & Hd & Ht)]).
    + split_and!; [done..|]. by left.
    + split_and!; [done..|]. right. rewrite <- app_assoc in Hd. done.
Qed.

Lemma exact_unwind_loop_ok p rest : ∀ i ip ts data,
  (∀ j, 0 ≤ unw_get_reg p j) →
  NativeTrace.exact_unwind_loop p i ip rest ts data
  = (vector_size (data ++ ip :: rest), ts, data ++ ip :: rest).
Proof.
  induction rest as [|next rest IH]; intros i ip ts data Hok; simpl;
    (rewrite decide_False by (specialize (Hok i); lia)).
  - done.
  - rewrite IH by done. by rewrite <- app_assoc.
Qed.

Lemma exact_unwind_spec p ts data n ts' data' :
  NativeTrace.exact_unwind p ts data = (n, ts', data') →
  MAX_SIZE ts' = MAX_SIZE ts ∧ unwinds ts' = unwinds ts ++ [ExactUnwind] ∧
  ((n = 0 ∧ ∃ msg, cerr ts' = cerr ts ++ [msg])
   ∨ (n = vector_size data' ∧ data' = data ++ frames p ∧ cerr ts' = cerr ts)).
Proof.
  unfold NativeTrace.exact_unwind. intros E.
  repeat case_decide.
  - inversion E; subst; simpl. split_and!; [done..|]. left. eauto.
  - inversion E; subst; simpl. split_and!; [done..|]. left. eauto.
  - apply exact_unwind_loop_spec in E as (HM & HU & [[Hn Hc] | (Hn & Hd & Ht)]);
      simpl in *.
    + split_and!; [done..|]. left. eauto.
    + subst ts'. simpl. split_and!; [done..|]. by right.
Qed.

Lemma exact_unwind_ok p ts data :
  0 ≤ unw_getcontext p → 0 ≤ unw_init_local p → (∀ j, 0 ≤ unw_get_reg p j) →
  NativeTrace.exact_unwind p ts data
  = (vector_size (data ++ frames p), ran ExactUnwind ts, data ++ frames p).
Proof.
  intros H1 H2 H3. unfold NativeTrace.exact_unwind.
  rewrite !decide_False by lia. by apply exact_unwind_loop_ok.
Qed.

(** ** The fast unwind *)

Lemma fast_count_bounds p ts :
  0 ≤ fast_count p ts ≤ INT_MAX ∧ fast_count p ts ≤ depth p
  ∧ (0 ≤ MAX_SIZE ts → fast_count p ts ≤ MAX_SIZE ts).
Proof.
  unfold fast_count, depth.
  pose proof (to_int_max (MAX_SIZE ts)). unfold INT_MAX in *.
  split; [lia|]. split; [lia|].
  intros Hpos. pose proof (to_int_le _ Hpos). lia.
Qed.

Lemma unwind_fits p ts data :
  vector_size data = MAX_SIZE ts →
  let k := Z.to_nat (fast_count p ts) in
  NativeTrace.unwind p ts data
  = Some (fast_count p ts, ran (FastUnwind (MAX_SIZE ts)) ts,
          take k (frames p) ++ drop k data).
Proof.
  intros Hlen k. unfold NativeTrace.unwind, unw_backtrace.
  pose proof (fast_count_bounds p ts) as (_ & _ & Hle).
  unfold vector_size in Hlen. subst k. unfold fast_count in *.
  rewrite Nat2Z.id.
  rewrite decide_True by lia. done.
Qed.

(** ** What one [fill] does to a trace whose buffer has the thread's capacity *)

Lemma fill_spec p skip ts nt :
  vector_size (NativeTrace.d_data nt) = MAX_SIZE ts →
  depth p < 2 ^ 64 → 0 ≤ skip →
  ∃ n ts' data',
    unwound p ts (NativeTrace.d_data nt) = Some n
    ∧ NativeTrace.fill p skip ts nt
      = Some (bool_decide (n > skip), ts',
              NativeTrace.mk (if decide (n > skip) then n - skip else 0) skip data')
    ∧ 0 ≤ n ≤ depth p
    ∧ n ≤ vector_size data'
    ∧ vector_size data' = MAX_SIZE ts'
    ∧ MAX_SIZE ts ≤ MAX_SIZE ts'
    ∧ take (Z.to_nat n) data' = take (Z.to_nat n) (frames p).
Proof.
  intros Hlen Hdepth Hskip.
  unfold unwound, NativeTrace.fill.
  rewrite (unwind_fits _ _ _ Hlen). simpl.
  pose proof (fast_count_bounds p ts) as (Hint & Hdp & Hcap).
  assert (0 ≤ MAX_SIZE ts) as Hpos by (unfold vector_size in Hlen; lia).
  specialize (Hcap Hpos).
  set (n0 := fast_count p ts) in *.
  rewrite (to_size_t_id n0) by (unfold INT_MAX in Hint; lia).
  destruct (decide (n0 = MAX_SIZE ts)) as [Heq | Hne].
  - destruct (NativeTrace.exact_unwind p _ _) as [[n ts1] data1] eqn:E.
    apply exact_unwind_spec in E as (HM & _ & Hres). simpl in HM.
    rewrite resize_0, app_nil_l in Hres.
    assert (0 ≤ n ≤ depth p ∧ n = 0 ∨ n = depth p ∧ data1 = frames p) as Hn.
    { destruct Hres as [[-> _] | (-> & -> & _)]; [left|right].
      - unfold depth. lia.
      - done. }
    assert (to_size_t (MAX_SIZE ts1 * 2) = MAX_SIZE ts * 2) as Hdbl.
    { rewrite HM. apply to_size_t_id. unfold INT_MAX in Hint. lia. }
    rewrite Hdbl. simpl.
    exists n, (set_MAX_SIZE
                 (if decide (MAX_SIZE ts * 2 > n) then MAX_SIZE ts * 2 else n) ts1),
      (resize (if decide (MAX_SIZE ts * 2 > n) then MAX_SIZE ts * 2 else n) data1).
    assert (0 ≤ n ≤ depth p) as Hrange by (unfold depth in *; lia).
    assert (n ≤ if decide (MAX_SIZE ts * 2 > n) then MAX_SIZE ts * 2 else n)
      as Hm by (destruct (decide (MAX_SIZE ts * 2 > n)); lia).
    split; [done|]. split.
    { destruct (decide (n > skip)); [rewrite to_size_t_id by lia|];
        do 3 f_equal; apply bool_decide_ext; lia. }
    split; [done|].
    rewrite resize_length by lia. simpl.
    split; [done|]. split; [done|].
    split; [destruct (decide (MAX_SIZE ts * 2 > n)); lia|].
    destruct Hn as [[_ ->] | [-> ->]]; [done|].
    unfold depth. rewrite Nat2Z.id. rewrite resize_take; [done|lia|].
    unfold depth in Hm. lia.
  - exists n0, (ran (FastUnwind (MAX_SIZE ts)) ts),
      (take (Z.to_nat n0) (frames p) ++ drop (Z.to_nat n0) (NativeTrace.d_data nt)).
    unfold vector_size in *.
    assert (Z.to_nat n0 ≤ length (frames p))%nat as Hk by (unfold depth in Hdp; lia).
    split; [done|]. split.
    { destruct (decide (n0 > skip)); [rewrite to_size_t_id by lia|];
        do 3 f_equal; apply bool_decide_ext; lia. }
    split; [lia|].
    rewrite length_app, length_take, length_drop. cbn [MAX_SIZE ran].
    split; [lia|]. split; [lia|]. split; [lia|].
    rewrite take_app_le by (rewrite length_take; lia).
    rewrite take_take. f_equal. lia.
Qed.

Lemma new_buffer ts :
  0 ≤ MAX_SIZE ts → vector_size (NativeTrace.d_data (NativeTrace.new ts)) = MAX_SIZE ts.
Proof. intros H. simpl. by apply resize_length. Qed.

(** ** Indexing a filled trace *)

Lemma index_captured p n k data i :
  0 ≤ k → k < n ≤ depth p → depth p < 2 ^ 64 →
  take (Z.to_nat n) data = take (Z.to_nat n) (frames p) →
  0 ≤ i < n - k →
  NativeTrace.index (NativeTrace.mk (n - k) k data) i
  = frames p !! Z.to_nat (n - 1 - i)
  ∧ is_Some (frames p !! Z.to_nat (n - 1 - i)).
Proof.
  intros Hk Hn Hd Htake Hi. unfold NativeTrace.index. simpl.
  replace (k + (n - k) - 1 - i) with (n - 1 - i) by lia.
  rewrite to_size_t_id by lia.
  unfold at_index. rewrite decide_True by lia.
  assert (Z.to_nat (n - 1 - i) < Z.to_nat n)%nat as Hlt by lia.
  split.
  - rewrite <- (lookup_take_lt data _ _ Hlt), Htake.
    by apply lookup_take_lt.
  - apply lookup_lt_is_Some. unfold depth in Hn. lia.
Qed.

(** C1, as stated, fails: on the three-frame stack [10; 20; 30] (innermost
    first) with capacity 64, the capture with skip 1 has the outermost
    frame 30 at index 0, while the unskipped capture has 20 at index 1. *)
Lemma skip_shifts_index_counterexample :
  ¬ skip_shifts_index (healthy 10 [20; 30]) (mkThread 64 [] []) 1.
Proof.
  intros H.
  specialize (H _ _ _ _ _ eq_refl eq_refl).
  vm_compute in H. discriminate H.
Qed.

(** With the capacity within [int], whatever was unwound is the whole
    stack. *)
Lemma unwound_whole_stack p ts data n :
  vector_size data = MAX_SIZE ts →
  MAX_SIZE ts ≤ INT_MAX →
  unwound p ts data = Some n →
  0 < n →
  n = depth p.
Proof.
  intros Hlen Hint. unfold unwound.
  pose proof (unwind_fits p ts data Hlen) as Hu. simpl in Hu. rewrite Hu.
  pose proof (fast_count_bounds p ts) as (Hrange & _ & _).
  rewrite (to_size_t_id (fast_count p ts)) by (unfold INT_MAX in Hrange; lia).
  cbn [MAX_SIZE ran].
  assert (0 ≤ MAX_SIZE ts) as Hpos by (unfold vector_size in Hlen; lia).
  destruct (decide (fast_count p ts = MAX_SIZE ts)) as [Heq | Hne].
  - destruct (NativeTrace.exact_unwind p _ _) as [[d ts2] data2] eqn:E.
    simpl. intros [= <-] Hn.
    apply exact_unwind_spec in E as (_ & _ & [[-> _] | (-> & -> & _)]); [lia|].
    by rewrite resize_0, app_nil_l.
  - intros [= <-] Hn. unfold fast_count, depth in *.
    rewrite to_int_id in * by (unfold INT_MAX in *; lia). lia.
Qed.

(** C1, amended: skipping does not move the indices. With the capacity
    within [int], when a capture with skip [k] succeeds, the unskipped
    capture of the same stack succeeds too, holds the whole stack and has
    [k] more frames; index 0 of both is the outermost frame of the stack
    (the last one unwound); and every index [i] of the skipped capture
    holds the frame the unskipped capture holds at the same index [i],
    the frame at position [depth - 1 - i] of the stack. Skipping only
    removes the last [k] indices, the innermost frames. *)
Theorem capture_skip_keeps_index p ts k ts1 nt1 :
  depth p < 2 ^ 64 → 0 ≤ MAX_SIZE ts ≤ INT_MAX → 0 ≤ k →
  capture p k ts = Some (true, ts1, nt1) →
  ∃ ts0 nt0 outermost,
    capture p 0 ts = Some (true, ts0, nt0)
    ∧ NativeTrace.d_size nt0 = depth p
    ∧ NativeTrace.d_size nt1 = depth p - k
    ∧ last (frames p) = Some outermost
    ∧ NativeTrace.index nt1 0 = Some outermost
    ∧ NativeTrace.index nt0 0 = Some outermost
    ∧ ∀ i, 0 ≤ i < depth p - k →
        ∃ f, frames p !! Z.to_nat (depth p - 1 - i) = Some f
             ∧ NativeTrace.index nt1 i = Some f
             ∧ NativeTrace.index nt0 i = Some f.
Proof.
  intros Hd [HM Hint] Hk Hcap. unfold capture in *.
  pose proof (new_buffer ts HM) as Hlen.
  destruct (fill_spec p k ts _ Hlen Hd Hk)
    as (n & ts1' & d1 & Hn & Hf1 & Hr1 & _ & _ & _ & Ht1).
  destruct (fill_spec p 0 ts _ Hlen Hd (Z.le_refl 0))
    as (n' & ts0 & d0 & Hn' & Hf0 & _ & _ & _ & _ & Ht0).
  rewrite Hn in Hn'. injection Hn' as <-.
  rewrite Hf1 in Hcap. injection Hcap as Hb _ <-.
  apply bool_decide_eq_true in Hb.
  assert (n = depth p) as ->.
  { apply (unwound_whole_stack p ts (NativeTrace.d_data (NativeTrace.new ts)) n);
      [done|done|done|lia]. }
  rewrite decide_True in * by lia.
  assert (∀ i, 0 ≤ i < depth p - k →
    ∃ f, frames p !! Z.to_nat (depth p - 1 - i) = Some f
         ∧ NativeTrace.index (NativeTrace.mk (depth p - k) k d1) i = Some f
         ∧ NativeTrace.index (NativeTrace.mk (depth p - 0) 0 d0) i = Some f)
    as Hidx.
  { intros i Hi.
    destruct (index_captured p (depth p) k d1 i) as [E1 [f Hf]]; [lia..|done|lia|].
    destruct (index_captured p (depth p) 0 d0 i) as [E0 _]; [lia..|done|lia|].
    exists f. by rewrite E1, E0. }
  destruct (Hidx 0) as (f0 & Hlast & Hi1 & Hi0); [lia|].
  exists ts0, (NativeTrace.mk (depth p - 0) 0 d0), f0.
  rewrite Hf0. rewrite (bool_decide_eq_true_2 (depth p > 0)) by lia.
  split; [done|]. simpl. split; [lia|]. split; [done|]. split.
  { rewrite last_lookup. rewrite <- Hlast. f_equal. unfold depth. lia. }
  split; [done|]. split; [done|]. exact Hidx.
Qed.

Lemma capture_skip_keeps_index_witness :
  ∃ ts0 nt0 outermost,
    capture (healthy 10 [20; 30]) 0 (mkThread 2 [] []) = Some (true, ts0, nt0)
    ∧ NativeTrace.d_size nt0 = depth (healthy 10 [20; 30])
    ∧ NativeTrace.d_size (NativeTrace.mk 2 1 [10; 20; 30; 0])
      = depth (healthy 10 [20; 30]) - 1
    ∧ last (frames (healthy 10 [20; 30])) = Some outermost
    ∧ NativeTrace.index (NativeTrace.mk 2 1 [10; 20; 30; 0]) 0 = Some outermost
    ∧ NativeTrace.index nt0 0 = Some outermost
    ∧ ∀ i, 0 ≤ i < depth (healthy 10 [20; 30]) - 1 →
        ∃ f, frames (healthy 10 [20; 30])
               !! Z.to_nat (depth (healthy 10 [20; 30]) - 1 - i) = Some f
             ∧ NativeTrace.index (NativeTrace.mk 2 1 [10; 20; 30; 0]) i = Some f
             ∧ NativeTrace.index nt0 i = Some f.
Proof.
  apply (capture_skip_keeps_index (healthy 10 [20; 30]) (mkThread 2 [] []) 1
           (mkThread 4 [] [FastUnwind 2; ExactUnwind])).
  - vm_compute. reflexivity.
  - vm_compute. split; discriminate.
  - lia.
  - vm_compute. reflexivity.
Defined.

(** ** Which unwinding routine runs, and what it does to the capacity *)

Lemma unwind_inv p ts data n ts1 data1 :
  NativeTrace.unwind p ts data = Some (n, ts1, data1) →
  n = fast_count p ts ∧ ts1 = ran (FastUnwind (MAX_SIZE ts)) ts
  ∧ vector_size data1 = vector_size data.
Proof.
  unfold NativeTrace.unwind, unw_backtrace, fast_count, vector_size.
  case_decide as Hfit; [|done]. intros [= <- <- <-].
  split; [done|]. split; [done|].
  rewrite length_app, length_take, length_drop.
  unfold frames in *. simpl in *. lia.
Qed.

(** The two ways through [fill], with the conversions resolved. *)
Lemma fill_branches p skip ts nt n ts1 data1 :
  NativeTrace.unwind p ts (NativeTrace.d_data nt) = Some (n, ts1, data1) →
  (n = MAX_SIZE ts →
   ∀ d ts2 data2,
     NativeTrace.exact_unwind p ts1 (resize 0 data1) = (d, ts2, data2) →
     NativeTrace.fill p skip ts nt
     = Some (bool_decide ((if decide (d > skip) then to_size_t (d - skip) else 0) > 0),
             set_MAX_SIZE (Z.max (2 * MAX_SIZE ts) d) ts2,
             NativeTrace.mk (if decide (d > skip) then to_size_t (d - skip) else 0)
               skip (resize (Z.max (2 * MAX_SIZE ts) d) data2)))
  ∧ (n ≠ MAX_SIZE ts →
     NativeTrace.fill p skip ts nt
     = Some (bool_decide ((if decide (n > skip) then to_size_t (n - skip) else 0) > 0),
             ts1,
             NativeTrace.mk (if decide (n > skip) then to_size_t (n - skip) else 0)
               skip data1)).
Proof.
  intros Hu. unfold NativeTrace.fill. rewrite Hu.
  apply unwind_inv in Hu as (Hn & Hts1 & _).
  pose proof (fast_count_bounds p ts) as [Hrange _]. rewrite <- Hn in Hrange.
  rewrite (to_size_t_id n) by (unfold INT_MAX in Hrange; lia).
  assert (MAX_SIZE ts1 = MAX_SIZE ts) as HM1 by (by subst ts1).
  rewrite HM1. split.
  - intros Heq d ts2 data2 E. rewrite decide_True by done. rewrite E.
    apply exact_unwind_spec in E as (HM2 & _ & _).
    rewrite HM2, HM1.
    rewrite (to_size_t_id (MAX_SIZE ts * 2)) by (unfold INT_MAX in Hrange; lia).
    replace (if decide (MAX_SIZE ts * 2 > d) then MAX_SIZE ts * 2 else d)
      with (Z.max (2 * MAX_SIZE ts) d)
      by (destruct (decide (MAX_SIZE ts * 2 > d)); lia).
    done.
  - intros Hne. by rewrite decide_False by done.
Qed.

(** C2: in [fill], the exact unwind runs if and only if the count the
    fast unwind returned equals the thread-local capacity; when it runs,
    the new capacity is exactly the maximum of twice the old capacity and
    the count the exact unwind returned, and otherwise the capacity is
    left as it was. *)
Theorem fill_exact_unwind_iff_truncated p skip ts nt n ts1 data1 :
  NativeTrace.unwind p ts (NativeTrace.d_data nt) = Some (n, ts1, data1) →
  ∃ b ts' nt',
    NativeTrace.fill p skip ts nt = Some (b, ts', nt')
    ∧ unwinds ts'
      = unwinds ts ++ FastUnwind (MAX_SIZE ts)
          :: (if decide (n = MAX_SIZE ts) then [ExactUnwind] else [])
    ∧ (ExactUnwind ∈ drop (length (unwinds ts)) (unwinds ts') ↔ n = MAX_SIZE ts)
    ∧ MAX_SIZE ts'
      = if decide (n = MAX_SIZE ts)
        then Z.max (2 * MAX_SIZE ts)
               (NativeTrace.exact_unwind p ts1 (resize 0 data1)).1.1
        else MAX_SIZE ts.
Proof.
  intros Hu.
  destruct (fill_branches p skip ts nt n ts1 data1 Hu) as [Hexact Hfast].
  apply unwind_inv in Hu as (_ & Hts1 & _).
  assert (unwinds ts1 = unwinds ts ++ [FastUnwind (MAX_SIZE ts)]) as HU1
    by (by subst ts1).
  destruct (decide (n = MAX_SIZE ts)) as [Heq | Hne].
  - destruct (NativeTrace.exact_unwind p ts1 (resize 0 data1))
      as [[d ts2] data2] eqn:E.
    rewrite (Hexact Heq _ _ _ eq_refl).
    apply exact_unwind_spec in E as (_ & HU2 & _).
    eexists _, _, _. split; [reflexivity|]. simpl.
    rewrite HU2, HU1, <- app_assoc. simpl.
    split; [done|]. split; [|done].
    rewrite drop_app_length. split; [done|]. intros _.
    do 2 constructor.
  - rewrite (Hfast Hne).
    eexists _, _, _. split; [reflexivity|].
    rewrite HU1. split; [done|]. split; [|by subst ts1].
    rewrite drop_app_length. split; [|done].
    intros Hin. apply list_elem_of_singleton in Hin. discriminate Hin.
Qed.

Lemma fill_exact_unwind_iff_truncated_witness :
  ∃ b ts' nt',
    NativeTrace.fill (healthy 10 [20; 30]) 1 (mkThread 2 [] [])
      (NativeTrace.new (mkThread 2 [] [])) = Some (b, ts', nt')
    ∧ unwinds ts'
      = [] ++ FastUnwind 2 :: (if decide (2 = 2) then [ExactUnwind] else [])
    ∧ (ExactUnwind ∈ drop 0 (unwinds ts') ↔ 2 = 2)
    ∧ MAX_SIZE ts'
      = if decide (2 = 2)
        then Z.max (2 * 2)
               (NativeTrace.exact_unwind (healthy 10 [20; 30])
                  (mkThread 2 [] [FastUnwind 2]) (resize 0 [10; 20])).1.1
        else 2.
Proof.
  apply (fill_exact_unwind_iff_truncated (healthy 10 [20; 30]) 1
           (mkThread 2 [] []) (NativeTrace.new (mkThread 2 [] []))
           2 (mkThread 2 [] [FastUnwind 2]) [10; 20]).
  vm_compute. reflexivity.
Defined.

(** ** The capacity over a run of captures *)

Lemma fill_capacity p skip ts nt :
  vector_size (NativeTrace.d_data nt) = MAX_SIZE ts →
  ∃ b ts' nt',
    NativeTrace.fill p skip ts nt = Some (b, ts', nt')
    ∧ MAX_SIZE ts ≤ MAX_SIZE ts'
    ∧ vector_size (NativeTrace.d_data nt') = MAX_SIZE ts'
    ∧ (fast_count p ts = MAX_SIZE ts →
       (NativeTrace.exact_unwind p (ran (FastUnwind (MAX_SIZE ts)) ts) []).1.1
       ≤ MAX_SIZE ts').
Proof.
  intros Hlen.
  pose proof (unwind_fits p ts _ Hlen) as Hu. simpl in Hu.
  destruct (fill_branches p skip ts nt _ _ _ Hu) as [Hexact Hfast].
  apply unwind_inv in Hu as (_ & _ & Hlen1).
  assert (0 ≤ MAX_SIZE ts) as Hpos by (unfold vector_size in Hlen; lia).
  destruct (decide (fast_count p ts = MAX_SIZE ts)) as [Heq | Hne].
  - rewrite resize_0 in Hexact.
    destruct (NativeTrace.exact_unwind p (ran (FastUnwind (MAX_SIZE ts)) ts) [])
      as [[d ts2] data2] eqn:E.
    rewrite (Hexact Heq _ _ _ eq_refl).
    eexists _, _, _. split; [reflexivity|]. simpl.
    rewrite resize_length by lia. split; [lia|]. split; [done|]. lia.
  - rewrite (Hfast Hne).
    eexists _, _, _. split; [reflexivity|]. simpl.
    split; [lia|]. split; [lia|]. done.
Qed.

Lemma captures_app cs1 : ∀ cs2 ts,
  captures (cs1 ++ cs2) ts
  = match captures cs1 ts with Some ts' => captures cs2 ts' | None => None end.
Proof.
  induction cs1 as [|[p skip] cs1 IH]; intros cs2 ts; simpl; [done|].
  destruct (capture p skip ts) as [[[b ts'] nt']|]; [apply IH|done].
Qed.

Lemma captures_monotone cs : ∀ ts,
  0 ≤ MAX_SIZE ts →
  ∃ ts', captures cs ts = Some ts' ∧ MAX_SIZE ts ≤ MAX_SIZE ts'.
Proof.
  induction cs as [|[p skip] cs IH]; intros ts Hpos; simpl.
  - exists ts. split; [done|lia].
  - unfold capture.
    destruct (fill_capacity p skip ts _ (new_buffer ts Hpos))
      as (b & ts1 & nt1 & -> & Hle & _ & _).
    destruct (IH ts1) as (ts' & -> & Hle'); [lia|].
    exists ts'. split; [done|lia].
Qed.

(** C3: when a capture is truncated and the exact unwind returns the
    count [d] (the depth of the stack, when libunwind does not fail), the
    capacity the capture leaves is at least [d]; and over every run of
    further captures on the thread the capacity never decreases: every
    capture completes, and the capacity after any later capture is at
    least the capacity after any earlier one. *)
Theorem capacity_grows_and_never_shrinks p skip ts :
  0 ≤ MAX_SIZE ts →
  fast_count p ts = MAX_SIZE ts →
  ∃ b ts1 nt1 d,
    capture p skip ts = Some (b, ts1, nt1)
    ∧ d = (NativeTrace.exact_unwind p (ran (FastUnwind (MAX_SIZE ts)) ts) []).1.1
    ∧ (0 ≤ unw_getcontext p → 0 ≤ unw_init_local p → (∀ j, 0 ≤ unw_get_reg p j) →
       d = depth p)
    ∧ MAX_SIZE ts ≤ MAX_SIZE ts1
    ∧ d ≤ MAX_SIZE ts1
    ∧ ∀ cs1 cs2, ∃ ts2 ts3,
        captures cs1 ts1 = Some ts2
        ∧ captures (cs1 ++ cs2) ts1 = Some ts3
        ∧ MAX_SIZE ts1 ≤ MAX_SIZE ts2 ∧ MAX_SIZE ts2 ≤ MAX_SIZE ts3.
Proof.
  intros Hpos Htrunc. unfold capture.
  destruct (fill_capacity p skip ts _ (new_buffer ts Hpos))
    as (b & ts1 & nt1 & Hfill & Hle & _ & Hd).
  eexists b, ts1, nt1, _. split; [done|]. split; [reflexivity|].
  split; [|split; [done|split; [by apply Hd|]]].
  - intros H1 H2 H3. by rewrite exact_unwind_ok.
  - intros cs1 cs2.
    destruct (captures_monotone cs1 ts1) as (ts2 & E2 & Hle2); [lia|].
    destruct (captures_monotone cs2 ts2) as (ts3 & E3 & Hle3); [lia|].
    exists ts2, ts3. rewrite captures_app, E2. done.
Qed.

Lemma capacity_grows_and_never_shrinks_witness :
  ∃ b ts1 nt1 d,
    capture (healthy 10 [20; 30]) 1 (mkThread 2 [] []) = Some (b, ts1, nt1)
    ∧ d = (NativeTrace.exact_unwind (healthy 10 [20; 30])
             (ran (FastUnwind 2) (mkThread 2 [] [])) []).1.1
    ∧ (0 ≤ 0 → 0 ≤ 0 → (∀ j : nat, 0 ≤ 0) → d = depth (healthy 10 [20; 30]))
    ∧ 2 ≤ MAX_SIZE ts1
    ∧ d ≤ MAX_SIZE ts1
    ∧ ∀ cs1 cs2, ∃ ts2 ts3,
        captures cs1 ts1 = Some ts2
        ∧ captures (cs1 ++ cs2) ts1 = Some ts3
        ∧ MAX_SIZE ts1 ≤ MAX_SIZE ts2 ∧ MAX_SIZE ts2 ≤ MAX_SIZE ts3.
Proof.
  apply (capacity_grows_and_never_shrinks (healthy 10 [20; 30]) 1 (mkThread 2 [] [])).
  - simpl. lia.
  - vm_compute. reflexivity.
Defined.

(** ** Failure of the platform facility *)

(** C4: when the exact unwind runs and libunwind cannot produce a context
    or a cursor, [fill] still returns: it reports no frames ([false],
    with [size()] zero), and one warning line has been written to the
    diagnostic stream. *)
Theorem exact_unwind_failure_is_empty_capture p skip ts nt :
  vector_size (NativeTrace.d_data nt) = MAX_SIZE ts →
  0 ≤ skip →
  fast_count p ts = MAX_SIZE ts →
  unw_getcontext p < 0 ∨ unw_init_local p < 0 →
  ∃ ts' nt',
    NativeTrace.fill p skip ts nt = Some (false, ts', nt')
    ∧ NativeTrace.size nt' = 0
    ∧ NativeTrace.d_size nt' = 0
    ∧ cerr ts'
      = cerr ts
          ++ [if decide (unw_getcontext p < 0)
              then "WARNING: Failed to initialize libunwind's context"
              else "WARNING: Failed to initialize libunwind's cursor"].
Proof.
  intros Hlen Hskip Htrunc Hfail.
  pose proof (unwind_fits p ts _ Hlen) as Hu. simpl in Hu.
  destruct (fill_branches p skip ts nt _ _ _ Hu) as [Hexact _].
  rewrite resize_0 in Hexact.
  assert (∃ ts2,
    NativeTrace.exact_unwind p (ran (FastUnwind (MAX_SIZE ts)) ts) [] = (0, ts2, [])
    ∧ cerr ts2
      = cerr ts
          ++ [if decide (unw_getcontext p < 0)
              then "WARNING: Failed to initialize libunwind's context"
              else "WARNING: Failed to initialize libunwind's cursor"])
    as (ts2 & E & Hc).
  { unfold NativeTrace.exact_unwind.
    destruct (decide (unw_getcontext p < 0)); [by eexists|].
    rewrite decide_True by lia. by eexists. }
  rewrite (Hexact Htrunc _ _ _ E).
  rewrite decide_False by lia.
  rewrite bool_decide_eq_false_2 by lia.
  eexists _, _. split; [reflexivity|]. done.
Qed.

Lemma exact_unwind_failure_is_empty_capture_witness :
  ∃ ts' nt',
    NativeTrace.fill (mkPlatform 10 [20; 30] (-1) 0 (fun _ => 0)) 1
      (mkThread 3 [] []) (NativeTrace.new (mkThread 3 [] []))
    = Some (false, ts', nt')
    ∧ NativeTrace.size nt' = 0
    ∧ NativeTrace.d_size nt' = 0
    ∧ cerr ts' = [] ++ ["WARNING: Failed to initialize libunwind's context"].
Proof.
  apply (exact_unwind_failure_is_empty_capture
           (mkPlatform 10 [20; 30] (-1) 0 (fun _ => 0)) 1
           (mkThread 3 [] []) (NativeTrace.new (mkThread 3 [] []))).
  - vm_compute. reflexivity.
  - lia.
  - vm_compute. reflexivity.
  - left. simpl. lia.
Defined.

(** ** The guarded subtraction *)

(** C9: for every skip count, [fill] returns, and the subtraction it
    performs cannot wrap: with [n] the number of unwound frames, if
    [n > skip] then [size()] is [n - skip] and the result is [true];
    otherwise [size()] is 0 and the result is [false]. (The stack depth
    is within [int], the range of libunwind's own counts.) *)
Theorem fill_guards_the_subtraction p skip ts nt :
  vector_size (NativeTrace.d_data nt) = MAX_SIZE ts →
  depth p ≤ INT_MAX →
  0 ≤ skip →
  ∃ n b ts' nt',
    unwound p ts (NativeTrace.d_data nt) = Some n
    ∧ NativeTrace.fill p skip ts nt = Some (b, ts', nt')
    ∧ (skip < n → NativeTrace.size nt' = n - skip ∧ b = true)
    ∧ (n ≤ skip → NativeTrace.size nt' = 0 ∧ b = false)
    ∧ NativeTrace.d_size nt' = Z.max 0 (n - skip)
    ∧ NativeTrace.d_skip nt' = skip.
Proof.
  intros Hlen Hd Hskip.
  assert (depth p < 2 ^ 64) as Hd64 by (unfold INT_MAX in Hd; lia).
  destruct (fill_spec p skip ts nt Hlen Hd64 Hskip)
    as (n & ts' & data' & Hn & Hfill & Hr & _).
  eexists n, (bool_decide (n > skip)), ts', _.
  split; [done|]. split; [exact Hfill|].
  unfold NativeTrace.size. simpl.
  destruct (decide (n > skip)) as [Hgt | Hle].
  - rewrite to_int_id by (unfold INT_MAX in *; lia).
    rewrite bool_decide_eq_true_2 by done.
    split; [done|]. split; [lia|]. split; [lia|done].
  - rewrite bool_decide_eq_false_2 by done.
    split; [lia|]. split; [done|]. split; [lia|done].
Qed.

Lemma fill_guards_the_subtraction_witness :
  ∃ n b ts' nt',
    unwound (healthy 10 [20; 30]) (mkThread 64 [] [])
      (NativeTrace.d_data (NativeTrace.new (mkThread 64 [] []))) = Some n
    ∧ NativeTrace.fill (healthy 10 [20; 30]) 5 (mkThread 64 [] [])
        (NativeTrace.new (mkThread 64 [] [])) = Some (b, ts', nt')
    ∧ (5 < n → NativeTrace.size nt' = n - 5 ∧ b = true)
    ∧ (n ≤ 5 → NativeTrace.size nt' = 0 ∧ b = false)
    ∧ NativeTrace.d_size nt' = Z.max 0 (n - 5)
    ∧ NativeTrace.d_skip nt' = 5.
Proof.
  apply (fill_guards_the_subtraction (healthy 10 [20; 30]) 5 (mkThread 64 [] [])
           (NativeTrace.new (mkThread 64 [] []))).
  - vm_compute. reflexivity.
  - vm_compute. discriminate.
  - lia.
Defined.

(** ** Iteration and indexing *)

Lemma traverse_range data : ∀ (m : nat) (e : nat) (fuel : nat),
  (m ≤ fuel)%nat → (e + m ≤ length data)%nat →
  NativeTrace.traverse fuel (Z.of_nat e + Z.of_nat m) (Z.of_nat e) data
  = Some (Some <$> reverse (take m (drop e data))).
Proof.
  induction m as [|m IH]; intros e fuel Hfuel Hlen.
  - rewrite Z.add_0_r. destruct fuel; simpl; by rewrite decide_True.
  - destruct fuel as [|fuel]; [lia|]. simpl NativeTrace.traverse.
    rewrite decide_False by lia.
    replace (Z.of_nat e + Z.of_nat (S m) - 1) with (Z.of_nat e + Z.of_nat m) by lia.
    rewrite IH by lia.
    destruct (lookup_lt_is_Some_2 data (e + m)) as [x Hx]; [lia|].
    replace (Z.of_nat e + Z.of_nat m) with (Z.of_nat (e + m)) by lia.
    rewrite at_index_lookup, Hx.
    rewrite (take_S_r _ _ x) by (by rewrite lookup_drop).
    by rewrite reverse_snoc.
Qed.

(** C10: after a successful [fill], walking from [begin()] to [end()]
    visits exactly [size()] elements, every access falling inside the
    buffer; the element visited at position [i] is [operator[](i)], for
    every [i] below [size()]; and the order is from the outermost frame
    to the innermost one kept: the unwound frames without their first
    [skip], reversed. *)
Theorem iteration_agrees_with_index p skip ts nt ts' nt' :
  vector_size (NativeTrace.d_data nt) = MAX_SIZE ts →
  depth p ≤ INT_MAX →
  0 ≤ skip →
  NativeTrace.fill p skip ts nt = Some (true, ts', nt') →
  ∃ n visited,
    unwound p ts (NativeTrace.d_data nt) = Some n
    ∧ visited = reverse (drop (Z.to_nat skip) (take (Z.to_nat n) (frames p)))
    ∧ Z.of_nat (length visited) = NativeTrace.size nt'
    ∧ (∀ fuel, (length visited ≤ fuel)%nat →
         NativeTrace.iterate fuel nt' = Some (Some <$> visited))
    ∧ (∀ i, 0 ≤ i < NativeTrace.size nt' →
         ∃ f, visited !! Z.to_nat i = Some f ∧ NativeTrace.index nt' i = Some f)
    ∧ 0 ≤ NativeTrace.end_ nt'
    ∧ NativeTrace.end_ nt' ≤ NativeTrace.begin nt'
    ∧ NativeTrace.begin nt' ≤ vector_size (NativeTrace.d_data nt').
Proof.
  intros Hlen Hd Hskip Hfill.
  assert (depth p < 2 ^ 64) as Hd64 by (unfold INT_MAX in Hd; lia).
  destruct (fill_spec p skip ts nt Hlen Hd64 Hskip)
    as (n & ts1 & data' & Hn & Hf & Hr & Hcap & _ & _ & Htake).
  rewrite Hf in Hfill. injection Hfill as Hb _ <-.
  apply bool_decide_eq_true in Hb. rewrite decide_True by done.
  eexists n, _. split; [done|]. split; [reflexivity|].
  unfold NativeTrace.size, NativeTrace.iterate, NativeTrace.begin,
    NativeTrace.end_, NativeTrace.index. simpl.
  rewrite to_int_id by (unfold INT_MAX in *; lia).
  set (k := Z.to_nat skip). set (m := Z.to_nat (n - skip)).
  assert (Z.to_nat n = (k + m)%nat) as Hkm by lia.
  assert (drop k (take (Z.to_nat n) (frames p)) = take m (drop k data')) as Hseg.
  { rewrite <- Htake, Hkm. by rewrite take_drop_commute. }
  rewrite Hseg.
  assert (length (take m (drop k data')) = m) as Hlenseg.
  { rewrite length_take, length_drop. unfold vector_size in Hcap. lia. }
  rewrite length_reverse, Hlenseg.
  split; [lia|]. split.
  { intros fuel Hfuel.
    replace (0 + skip + (n - skip)) with (Z.of_nat k + Z.of_nat m) by lia.
    replace (0 + skip) with (Z.of_nat k) by lia.
    apply traverse_range; [done|]. unfold vector_size in Hcap. lia. }
  split; [|lia].
  intros i Hi.
  replace (skip + (n - skip) - 1 - i) with (n - 1 - i) by lia.
  rewrite to_size_t_id by lia.
  unfold at_index. rewrite decide_True by lia.
  rewrite reverse_lookup by (rewrite Hlenseg; lia).
  rewrite Hlenseg, lookup_take_lt by lia.
  rewrite lookup_drop.
  replace (k + (m - S (Z.to_nat i)))%nat with (Z.to_nat (n - 1 - i)) by lia.
  destruct (lookup_lt_is_Some_2 data' (Z.to_nat (n - 1 - i))) as [f Hf'];
    [unfold vector_size in Hcap; lia|].
  exists f. done.
Qed.

Lemma iteration_agrees_with_index_witness :
  ∃ n visited,
    unwound (healthy 10 [20; 30]) (mkThread 2 [] [])
      (NativeTrace.d_data (NativeTrace.new (mkThread 2 [] []))) = Some n
    ∧ visited = reverse (drop (Z.to_nat 1) (take (Z.to_nat n) (frames (healthy 10 [20; 30]))))
    ∧ Z.of_nat (length visited) = NativeTrace.size (NativeTrace.mk 2 1 [10; 20; 30; 0])
    ∧ (∀ fuel, (length visited ≤ fuel)%nat →
         NativeTrace.iterate fuel (NativeTrace.mk 2 1 [10; 20; 30; 0])
         = Some (Some <$> visited))
    ∧ (∀ i, 0 ≤ i < NativeTrace.size (NativeTrace.mk 2 1 [10; 20; 30; 0]) →
         ∃ f, visited !! Z.to_nat i = Some f
              ∧ NativeTrace.index (NativeTrace.mk 2 1 [10; 20; 30; 0]) i = Some f)
    ∧ 0 ≤ NativeTrace.end_ (NativeTrace.mk 2 1 [10; 20; 30; 0])
    ∧ NativeTrace.end_ (NativeTrace.mk 2 1 [10; 20; 30; 0])
      ≤ NativeTrace.begin (NativeTrace.mk 2 1 [10; 20; 30; 0])
    ∧ NativeTrace.begin (NativeTrace.mk 2 1 [10; 20; 30; 0])
      ≤ vector_size (NativeTrace.d_data (NativeTrace.mk 2 1 [10; 20; 30; 0])).
Proof.
  apply (iteration_agrees_with_index (healthy 10 [20; 30]) 1 (mkThread 2 [] [])
           (NativeTrace.new (mkThread 2 [] []))
           (mkThread 4 [] [FastUnwind 2; ExactUnwind])).
  - vm_compute. reflexivity.
  - vm_compute. discriminate.
  - lia.
  - vm_compute. reflexivity.
Defined.

(** ** The hook entry points without a tracker *)

(** C5: while [getTracker] returns null, each of [trackAllocation],
    [trackDeallocation], [invalidate_module_cache], [updateModuleCache]
    and [registerThreadName] leaves the whole process state as it was,
    whatever the implementations behind them would do: nothing is
    written to the sink, queued or reported; and so does any sequence of
    such calls. *)
Theorem hooks_without_tracker_do_nothing
    (getTracker : Tracker.World → option Tracker.t)
    (trackAllocationImpl trackDeallocationImpl :
       Tracker.t → Z → Z → Allocator → Tracker.World → Tracker.World)
    (invalidate_module_cache_impl updateModuleCacheImpl :
       Tracker.t → Tracker.World → Tracker.World)
    (registerThreadNameImpl : Tracker.t → string → Tracker.World → Tracker.World)
    (w : Tracker.World) :
  getTracker w = None →
  (∀ ptr size func,
     Tracker.trackAllocation getTracker trackAllocationImpl ptr size func w = w)
  ∧ (∀ ptr size func,
       Tracker.trackDeallocation getTracker trackDeallocationImpl ptr size func w = w)
  ∧ Tracker.invalidate_module_cache getTracker invalidate_module_cache_impl w = w
  ∧ Tracker.updateModuleCache getTracker updateModuleCacheImpl w = w
  ∧ (∀ name, Tracker.registerThreadName getTracker registerThreadNameImpl name w = w)
  ∧ ∀ cs,
      Tracker.hooks getTracker trackAllocationImpl trackDeallocationImpl
        invalidate_module_cache_impl updateModuleCacheImpl registerThreadNameImpl
        cs w = w.
Proof.
  intros Hnull.
  unfold Tracker.trackAllocation, Tracker.trackDeallocation,
    Tracker.invalidate_module_cache, Tracker.updateModuleCache,
    Tracker.registerThreadName.
  rewrite Hnull. repeat (split; [done|]).
  induction cs as [|c cs IH]; [done|].
  unfold Tracker.hooks in *. simpl.
  replace (Tracker.hook _ _ _ _ _ _ c w) with w; [exact IH|].
  destruct c; simpl;
    unfold Tracker.trackAllocation, Tracker.trackDeallocation,
      Tracker.invalidate_module_cache, Tracker.updateModuleCache,
      Tracker.registerThreadName;
    by rewrite Hnull.
Qed.

Lemma hooks_without_tracker_do_nothing_witness :
  (∀ ptr size func,
     Tracker.trackAllocation Tracker.getTracker write_allocation ptr size func
       Tracker.boot = Tracker.boot)
  ∧ (∀ ptr size func,
       Tracker.trackDeallocation Tracker.getTracker write_allocation ptr size func
         Tracker.boot = Tracker.boot)
  ∧ Tracker.invalidate_module_cache Tracker.getTracker write_nothing Tracker.boot
    = Tracker.boot
  ∧ Tracker.updateModuleCache Tracker.getTracker write_nothing Tracker.boot
    = Tracker.boot
  ∧ (∀ name,
       Tracker.registerThreadName Tracker.getTracker write_thread_name name
         Tracker.boot = Tracker.boot)
  ∧ ∀ cs,
      Tracker.hooks Tracker.getTracker write_allocation write_allocation
        write_nothing write_nothing write_thread_name cs Tracker.boot
      = Tracker.boot.
Proof.
  apply (hooks_without_tracker_do_nothing Tracker.getTracker write_allocation
           write_allocation write_nothing write_nothing write_thread_name
           Tracker.boot).
  reflexivity.
Defined.

(** ** The singleton life cycle *)

Lemma step_single_instance c w :
  single_instance w → single_instance (Tracker.step c w).
Proof.
  unfold single_instance. intros Hinv.
  destruct c; simpl;
    unfold Tracker.createTracker, Tracker.destroyTracker, Tracker.activate,
      Tracker.pushFrame, Tracker.popFrames; try done;
    destruct (Tracker.d_instance w) eqn:E;
    try destruct (Tracker.isActive w);
    simpl; rewrite ?E, ?Hinv; done.
Qed.

Lemma run_single_instance cs : ∀ w,
  single_instance w → single_instance (Tracker.run cs w).
Proof.
  induction cs as [|c cs IH]; intros w Hinv; [done|].
  apply IH. by apply step_single_instance.
Qed.

(** C6: in every state in which a tracker instance exists, a further
    [createTracker] reports an error and changes nothing, so that the
    existing instance is still the one [getTracker] returns, with its
    activation, sink and sampler as they were; and in every state the
    life-cycle calls can reach, at most one [Tracker] object is alive
    (exactly one when the instance pointer is set, none otherwise). *)
Theorem second_createTracker_fails w t record_writer native_traces memory_interval
    follow_fork :
  Tracker.d_instance w = Some t →
  Tracker.createTracker record_writer native_traces memory_interval follow_fork w
  = (Py_Error, w)
  ∧ Tracker.getTracker
      (Tracker.createTracker record_writer native_traces memory_interval
         follow_fork w).2 = Some t
  ∧ ∀ cs,
      (Tracker.live_trackers (Tracker.run cs Tracker.boot) ≤ 1)%nat
      ∧ single_instance (Tracker.run cs Tracker.boot).
Proof.
  intros Hinst. unfold Tracker.createTracker, Tracker.getTracker.
  rewrite Hinst. simpl. split; [done|]. split; [done|].
  intros cs.
  assert (single_instance (Tracker.run cs Tracker.boot)) as Hinv
    by (by apply run_single_instance).
  split; [|done]. unfold single_instance in Hinv. rewrite Hinv.
  destruct (Tracker.d_instance (Tracker.run cs Tracker.boot));
    [reflexivity|apply Nat.le_0_1].
Qed.

Lemma second_createTracker_fails_witness :
  Tracker.createTracker 2 false 0 false
    (Tracker.createTracker 1 true 10 true Tracker.boot).2
  = (Py_Error, (Tracker.createTracker 1 true 10 true Tracker.boot).2)
  ∧ Tracker.getTracker
      (Tracker.createTracker 2 false 0 false
         (Tracker.createTracker 1 true 10 true Tracker.boot).2).2
    = Some (Tracker.mk 1 true 10 true)
  ∧ ∀ cs,
      (Tracker.live_trackers (Tracker.run cs Tracker.boot) ≤ 1)%nat
      ∧ single_instance (Tracker.run cs Tracker.boot).
Proof.
  apply (second_createTracker_fails
           (Tracker.createTracker 1 true 10 true Tracker.boot).2
           (Tracker.mk 1 true 10 true) 2 false 0 false).
  reflexivity.
Defined.

(** C7: [destroyTracker] is idempotent: called again once the singleton
    is gone, it reports no error and leaves the state, which has no
    instance, exactly as the first call left it. *)
Theorem destroyTracker_idempotent w :
  Tracker.destroyTracker (Tracker.destroyTracker w).2
  = (Py_None, (Tracker.destroyTracker w).2)
  ∧ Tracker.d_instance (Tracker.destroyTracker w).2 = None
  ∧ (Tracker.destroyTracker w).1 = Py_None.
Proof.
  unfold Tracker.destroyTracker.
  destruct (Tracker.d_instance w) eqn:E; simpl; [done|].
  by rewrite E.
Qed.

Lemma thread_frames_set_same tid fs w :
  Tracker.thread_frames tid (Tracker.set_mirror (<[tid := fs]> (Tracker.mirror w)) w)
  = fs.
Proof. unfold Tracker.thread_frames. simpl. by rewrite lookup_insert_eq. Qed.

Lemma thread_frames_set_other tid tid' fs w :
  tid' ≠ tid →
  Tracker.thread_frames tid' (Tracker.set_mirror (<[tid := fs]> (Tracker.mirror w)) w)
  = Tracker.thread_frames tid' w.
Proof.
  intros Hne. unfold Tracker.thread_frames. simpl.
  by rewrite lookup_insert_ne.
Qed.

Lemma pushFrame_active tid frame w :
  is_Some (Tracker.d_instance w) →
  Tracker.isActive w = true →
  Tracker.pushFrame tid frame w
  = (true,
     Tracker.set_mirror
       (<[tid := Tracker.thread_frames tid w ++ [frame]]> (Tracker.mirror w)) w).
Proof.
  intros [t Ht] Hact. unfold Tracker.pushFrame. by rewrite Ht, Hact.
Qed.

Lemma popFrames_active tid count w :
  is_Some (Tracker.d_instance w) →
  Tracker.isActive w = true →
  Tracker.popFrames tid count w
  = (true,
     Tracker.set_mirror
       (<[tid := take (length (Tracker.thread_frames tid w) - Z.to_nat count)
                   (Tracker.thread_frames tid w)]> (Tracker.mirror w)) w).
Proof.
  intros [t Ht] Hact. unfold Tracker.popFrames. by rewrite Ht, Hact.
Qed.

(** Over the life cycle the activation flag is only ever set while an
    instance exists. *)
Lemma step_flag_needs_instance c w :
  (Tracker.isActive w = true → is_Some (Tracker.d_instance w)) →
  Tracker.isActive (Tracker.step c w) = true →
  is_Some (Tracker.d_instance (Tracker.step c w)).
Proof.
  unfold Tracker.isActive. intros Hinv.
  destruct c; simpl;
    unfold Tracker.createTracker, Tracker.destroyTracker, Tracker.activate,
      Tracker.pushFrame, Tracker.popFrames, Tracker.isActive;
    try done;
    destruct (Tracker.d_instance w) eqn:E;
    try destruct (Tracker.d_active w) eqn:F;
    simpl; rewrite ?E, ?F; eauto; done.
Qed.

Lemma run_flag_needs_instance cs : ∀ w,
  (Tracker.isActive w = true → is_Some (Tracker.d_instance w)) →
  Tracker.isActive (Tracker.run cs w) = true →
  is_Some (Tracker.d_instance (Tracker.run cs w)).
Proof.
  induction cs as [|c cs IH]; intros w Hinv; [done|].
  apply IH. by apply step_flag_needs_instance.
Qed.

(** C8: the singleton is active when an instance exists and its
    activation flag is set. Whenever it is not (no instance, or the flag
    cleared) [pushFrame] and [popFrames] return [false] and change
    nothing. When it is active they return [true] and maintain the
    mirror of the calling thread: a push appends the frame to that
    thread's sequence, a pop removes its [count] most recent frames (so
    a pop of one frame undoes a push), and the sequences of all other
    threads are left alone. Over the life cycle the flag is never set
    without an instance, so there [isActive] alone tells. *)
Theorem frame_hooks_follow_activation w tid frame count :
  (Tracker.d_instance w = None ∨ Tracker.isActive w = false →
   Tracker.pushFrame tid frame w = (false, w)
   ∧ Tracker.popFrames tid count w = (false, w))
  ∧ (is_Some (Tracker.d_instance w) → Tracker.isActive w = true →
     (Tracker.pushFrame tid frame w).1 = true
     ∧ Tracker.thread_frames tid (Tracker.pushFrame tid frame w).2
       = Tracker.thread_frames tid w ++ [frame]
     ∧ (Tracker.popFrames tid count w).1 = true
     ∧ Tracker.thread_frames tid (Tracker.popFrames tid count w).2
       = take (length (Tracker.thread_frames tid w) - Z.to_nat count)
           (Tracker.thread_frames tid w)
     ∧ Tracker.thread_frames tid
         (Tracker.popFrames tid 1 (Tracker.pushFrame tid frame w).2).2
       = Tracker.thread_frames tid w
     ∧ ∀ tid', tid' ≠ tid →
         Tracker.thread_frames tid' (Tracker.pushFrame tid frame w).2
         = Tracker.thread_frames tid' w
         ∧ Tracker.thread_frames tid' (Tracker.popFrames tid count w).2
           = Tracker.thread_frames tid' w)
  ∧ ∀ cs,
      Tracker.isActive (Tracker.run cs Tracker.boot) = true →
      is_Some (Tracker.d_instance (Tracker.run cs Tracker.boot)).
Proof.
  split; [|split].
  - unfold Tracker.pushFrame, Tracker.popFrames.
    intros [Hnone | Hoff].
    + by rewrite Hnone.
    + rewrite Hoff. by destruct (Tracker.d_instance w).
  - intros Hinst Hact.
    rewrite pushFrame_active, popFrames_active by done.
    cbn [fst snd].
    rewrite !thread_frames_set_same.
    split; [done|]. split; [done|]. split; [done|]. split; [done|]. split.
    + rewrite popFrames_active by done. cbn [fst snd].
      rewrite !thread_frames_set_same.
      rewrite length_app. simpl.
      replace (length (Tracker.thread_frames tid w) + 1 - Z.to_nat 1)%nat
        with (length (Tracker.thread_frames tid w)) by lia.
      by rewrite take_app_length.
    + intros tid' Hne. by rewrite !thread_frames_set_other.
  - intros cs. by apply run_flag_needs_instance.
Qed.

Lemma frame_hooks_follow_activation_witness :
  (Tracker.pushFrame 7 (mkRawFrame "f" "a.py" 3)
     (Tracker.run [Tracker.CreateTracker 1 true 10 false; Tracker.DestroyTracker;
                   Tracker.Activate] Tracker.boot)
   = (false,
      Tracker.run [Tracker.CreateTracker 1 true 10 false; Tracker.DestroyTracker;
                   Tracker.Activate] Tracker.boot)
   ∧ Tracker.popFrames 7 1
       (Tracker.run [Tracker.CreateTracker 1 true 10 false; Tracker.DestroyTracker;
                     Tracker.Activate] Tracker.boot)
     = (false,
        Tracker.run [Tracker.CreateTracker 1 true 10 false; Tracker.DestroyTracker;
                     Tracker.Activate] Tracker.boot))
  ∧ (Tracker.pushFrame 7 (mkRawFrame "f" "a.py" 3)
       (Tracker.run [Tracker.CreateTracker 1 true 10 false; Tracker.Deactivate]
          Tracker.boot)
     = (false,
        Tracker.run [Tracker.CreateTracker 1 true 10 false; Tracker.Deactivate]
          Tracker.boot)
     ∧ Tracker.popFrames 7 1
         (Tracker.run [Tracker.CreateTracker 1 true 10 false; Tracker.Deactivate]
            Tracker.boot)
       = (false,
          Tracker.run [Tracker.CreateTracker 1 true 10 false; Tracker.Deactivate]
            Tracker.boot))
  ∧ ((Tracker.pushFrame 7 (mkRawFrame "f" "a.py" 3)
        (Tracker.run [Tracker.CreateTracker 1 true 10 false] Tracker.boot)).1 = true
     ∧ Tracker.thread_frames 7
         (Tracker.pushFrame 7 (mkRawFrame "f" "a.py" 3)
            (Tracker.run [Tracker.CreateTracker 1 true 10 false] Tracker.boot)).2
       = Tracker.thread_frames 7
           (Tracker.run [Tracker.CreateTracker 1 true 10 false] Tracker.boot)
         ++ [mkRawFrame "f" "a.py" 3]).
Proof.
  split; [|split].
  - apply (frame_hooks_follow_activation
             (Tracker.run [Tracker.CreateTracker 1 true 10 false; Tracker.DestroyTracker;
                           Tracker.Activate] Tracker.boot)
             7 (mkRawFrame "f" "a.py" 3) 1).
    left. reflexivity.
  - apply (frame_hooks_follow_activation
             (Tracker.run [Tracker.CreateTracker 1 true 10 false; Tracker.Deactivate]
                Tracker.boot)
             7 (mkRawFrame "f" "a.py" 3) 1).
    right. reflexivity.
  - destruct (frame_hooks_follow_activation
                (Tracker.run [Tracker.CreateTracker 1 true 10 false] Tracker.boot)
                7 (mkRawFrame "f" "a.py" 3) 1) as (_ & Hactive & _).
    destruct Hactive as (H1 & H2 & _).
    + eexists. reflexivity.
    + reflexivity.
    + split; [exact H1|exact H2].
Defined.

(** ** Further properties of [NativeTrace] *)

Lemma fast_count_in_int p ts :
  0 ≤ MAX_SIZE ts ≤ INT_MAX → fast_count p ts = Z.min (MAX_SIZE ts) (depth p).
Proof.
  intros H. unfold fast_count, depth.
  rewrite to_int_id by (unfold INT_MAX in *; lia). lia.
Qed.

Lemma guarded_size n skip :
  0 ≤ skip → 0 ≤ n < 2 ^ 64 →
  (if decide (n > skip) then to_size_t (n - skip) else 0) = Z.max 0 (n - skip).
Proof.
  intros Hs Hn. destruct (decide (n > skip)); [rewrite to_size_t_id|]; lia.
Qed.

Lemma guarded_flag n skip :
  bool_decide (Z.max 0 (n - skip) > 0) = bool_decide (n > skip).
Proof. apply bool_decide_ext. lia. Qed.

(** [fill] when the fast count differs from the capacity. *)
Lemma fill_fast p skip ts nt :
  vector_size (NativeTrace.d_data nt) = MAX_SIZE ts →
  fast_count p ts ≠ MAX_SIZE ts →
  0 ≤ skip →
  NativeTrace.fill p skip ts nt
  = Some (bool_decide (fast_count p ts > skip),
          ran (FastUnwind (MAX_SIZE ts)) ts,
          NativeTrace.mk (Z.max 0 (fast_count p ts - skip)) skip
            (take (Z.to_nat (fast_count p ts)) (frames p)
             ++ drop (Z.to_nat (fast_count p ts)) (NativeTrace.d_data nt))).
Proof.
  intros Hlen Hne Hskip.
  pose proof (unwind_fits p ts _ Hlen) as Hu. simpl in Hu.
  destruct (fill_branches p skip ts nt _ _ _ Hu) as [_ Hfast].
  rewrite (Hfast Hne).
  pose proof (fast_count_bounds p ts) as [Hrange _].
  rewrite guarded_size by (unfold INT_MAX in Hrange; lia).
  by rewrite guarded_flag.
Qed.

(** [fill] when the fast count meets the capacity. *)
Lemma fill_exact p skip ts nt d ts2 data2 :
  vector_size (NativeTrace.d_data nt) = MAX_SIZE ts →
  fast_count p ts = MAX_SIZE ts →
  0 ≤ skip →
  NativeTrace.exact_unwind p (ran (FastUnwind (MAX_SIZE ts)) ts) [] = (d, ts2, data2) →
  d < 2 ^ 64 →
  NativeTrace.fill p skip ts nt
  = Some (bool_decide (d > skip),
          set_MAX_SIZE (Z.max (2 * MAX_SIZE ts) d) ts2,
          NativeTrace.mk (Z.max 0 (d - skip)) skip
            (resize (Z.max (2 * MAX_SIZE ts) d) data2)).
Proof.
  intros Hlen Heq Hskip E Hd.
  pose proof (unwind_fits p ts _ Hlen) as Hu. simpl in Hu.
  destruct (fill_branches p skip ts nt _ _ _ Hu) as [Hexact _].
  rewrite resize_0 in Hexact. rewrite (Hexact Heq _ _ _ E).
  assert (0 ≤ d) as Hd0.
  { apply exact_unwind_spec in E as (_ & _ & [[-> _] | (-> & _)]);
      unfold vector_size; lia. }
  rewrite guarded_size by lia. by rewrite guarded_flag.
Qed.

Lemma exact_unwind_loop_fails p rest : ∀ i ip ts data,
  (∃ j, (i ≤ j ≤ i + length rest)%nat ∧ unw_get_reg p j < 0) →
  ∃ data',
    NativeTrace.exact_unwind_loop p i ip rest ts data
    = (0, warn "WARNING: Failed to get instruction pointer" ts, data').
Proof.
  induction rest as [|next rest IH]; intros i ip ts data (j & Hj & Hfail); simpl;
    destruct (decide (unw_get_reg p i < 0)) as [Hi | Hi]; eauto.
  - simpl in Hj. assert (j = i) as -> by lia. lia.
  - apply IH. exists j. split; [|done]. simpl in Hj.
    destruct (decide (j = i)) as [-> | Hne]; [lia|lia].
Qed.

(** X3: [fill] keeps the buffer of the trace at the thread's capacity:
    started from a trace whose buffer has the capacity, it returns, the
    buffer of the result has the new capacity, and so the same object can
    be filled again, on any stack and with any skip. *)
Theorem fill_keeps_buffer_at_capacity p skip ts nt :
  vector_size (NativeTrace.d_data nt) = MAX_SIZE ts →
  ∃ b ts' nt',
    NativeTrace.fill p skip ts nt = Some (b, ts', nt')
    ∧ vector_size (NativeTrace.d_data nt') = MAX_SIZE ts'
    ∧ ∀ p2 skip2, ∃ b2 ts2 nt2,
        NativeTrace.fill p2 skip2 ts' nt' = Some (b2, ts2, nt2)
        ∧ vector_size (NativeTrace.d_data nt2) = MAX_SIZE ts2
        ∧ NativeTrace.d_skip nt2 = skip2.
Proof.
  intros Hlen.
  destruct (fill_capacity p skip ts nt Hlen) as (b & ts' & nt' & Hf & _ & Hlen' & _).
  exists b, ts', nt'. split; [done|]. split; [done|].
  intros p2 skip2.
  destruct (fill_capacity p2 skip2 ts' nt' Hlen') as (b2 & ts2 & nt2 & Hf2 & _ & Hlen2 & _).
  exists b2, ts2, nt2. split; [done|]. split; [done|].
  pose proof (unwind_fits p2 ts' _ Hlen') as Hu. simpl in Hu.
  destruct (fill_branches p2 skip2 ts' nt' _ _ _ Hu) as [Hexact Hfast].
  destruct (decide (fast_count p2 ts' = MAX_SIZE ts')) as [Heq | Hne].
  - destruct (NativeTrace.exact_unwind p2 (ran (FastUnwind (MAX_SIZE ts')) ts')
                (resize 0 (take (Z.to_nat (fast_count p2 ts')) (frames p2)
                           ++ drop (Z.to_nat (fast_count p2 ts')) (NativeTrace.d_data nt'))))
      as [[d ts3] data3] eqn:E.
    rewrite (Hexact Heq _ _ _ eq_refl) in Hf2. by injection Hf2 as _ _ <-.
  - rewrite (Hfast Hne) in Hf2. by injection Hf2 as _ _ <-.
Qed.

Lemma fill_keeps_buffer_at_capacity_witness :
  ∃ b ts' nt',
    NativeTrace.fill (healthy 10 [20; 30]) 1 (mkThread 2 [] [])
      (NativeTrace.new (mkThread 2 [] [])) = Some (b, ts', nt')
    ∧ vector_size (NativeTrace.d_data nt') = MAX_SIZE ts'
    ∧ ∀ p2 skip2, ∃ b2 ts2 nt2,
        NativeTrace.fill p2 skip2 ts' nt' = Some (b2, ts2, nt2)
        ∧ vector_size (NativeTrace.d_data nt2) = MAX_SIZE ts2
        ∧ NativeTrace.d_skip nt2 = skip2.
Proof.
  apply (fill_keeps_buffer_at_capacity (healthy 10 [20; 30]) 1 (mkThread 2 [] [])
           (NativeTrace.new (mkThread 2 [] []))).
  vm_compute. reflexivity.
Defined.

(** X4: a stack that is shallower than the capacity is captured whole by
    the fast unwind alone, whatever state libunwind's context and cursor
    calls are in: the capacity and the diagnostic stream are left as they
    were, the exact unwind does not run, and the buffer starts with the
    whole stack. *)
Theorem fill_below_capacity_is_quiet p skip ts nt :
  vector_size (NativeTrace.d_data nt) = MAX_SIZE ts →
  depth p < MAX_SIZE ts →
  MAX_SIZE ts ≤ INT_MAX →
  0 ≤ skip →
  NativeTrace.fill p skip ts nt
  = Some (bool_decide (depth p > skip),
          ran (FastUnwind (MAX_SIZE ts)) ts,
          NativeTrace.mk (Z.max 0 (depth p - skip)) skip
            (frames p ++ drop (length (frames p)) (NativeTrace.d_data nt))).
Proof.
  intros Hlen Hdeep Hint Hskip.
  assert (fast_count p ts = depth p) as Hfc.
  { rewrite fast_count_in_int; unfold depth in *; lia. }
  rewrite fill_fast by (done || lia).
  rewrite Hfc. unfold depth. rewrite Nat2Z.id.
  by rewrite take_ge by lia.
Qed.

Lemma fill_below_capacity_is_quiet_witness :
  NativeTrace.fill (mkPlatform 10 [20; 30] (-1) (-1) (fun _ => -1)) 1
    (mkThread 4 [] []) (NativeTrace.new (mkThread 4 [] []))
  = Some (bool_decide (depth (mkPlatform 10 [20; 30] (-1) (-1) (fun _ => -1)) > 1),
          ran (FastUnwind 4) (mkThread 4 [] []),
          NativeTrace.mk
            (Z.max 0 (depth (mkPlatform 10 [20; 30] (-1) (-1) (fun _ => -1)) - 1)) 1
            ([10; 20; 30] ++ drop 3 (NativeTrace.d_data (NativeTrace.new (mkThread 4 [] []))))).
Proof.
  apply (fill_below_capacity_is_quiet
           (mkPlatform 10 [20; 30] (-1) (-1) (fun _ => -1)) 1
           (mkThread 4 [] []) (NativeTrace.new (mkThread 4 [] []))).
  - vm_compute. reflexivity.
  - vm_compute. reflexivity.
  - vm_compute. discriminate.
  - lia.
Defined.

(** X1: when no libunwind call fails and the capacity is within [int], a
    [fill] captures the whole stack whatever the capacity is: it reports
    [depth - skip] frames (none when [skip] reaches the depth), writes
    nothing to the diagnostic stream, and index [i] holds the frame at
    position [depth - 1 - i] of the stack, the outermost frame at 0. *)
Theorem healthy_fill_captures_whole_stack p skip ts nt :
  vector_size (NativeTrace.d_data nt) = MAX_SIZE ts →
  MAX_SIZE ts ≤ INT_MAX →
  depth p < 2 ^ 64 →
  0 ≤ skip →
  0 ≤ unw_getcontext p → 0 ≤ unw_init_local p → (∀ j, 0 ≤ unw_get_reg p j) →
  ∃ ts' nt',
    NativeTrace.fill p skip ts nt = Some (bool_decide (depth p > skip), ts', nt')
    ∧ NativeTrace.d_size nt' = Z.max 0 (depth p - skip)
    ∧ NativeTrace.d_skip nt' = skip
    ∧ take (length (frames p)) (NativeTrace.d_data nt') = frames p
    ∧ cerr ts' = cerr ts
    ∧ ∀ i, 0 ≤ i < depth p - skip →
        NativeTrace.index nt' i = frames p !! Z.to_nat (depth p - 1 - i)
        ∧ is_Some (NativeTrace.index nt' i).
Proof.
  intros Hlen Hint Hd Hskip H1 H2 H3.
  assert (0 ≤ MAX_SIZE ts) as Hpos by (unfold vector_size in Hlen; lia).
  assert (∃ ts' data',
    NativeTrace.fill p skip ts nt
    = Some (bool_decide (depth p > skip), ts',
            NativeTrace.mk (Z.max 0 (depth p - skip)) skip data')
    ∧ take (length (frames p)) data' = frames p ∧ cerr ts' = cerr ts)
    as (ts' & data' & Hfill & Htake & Hcerr).
  { destruct (decide (fast_count p ts = MAX_SIZE ts)) as [Heq | Hne].
    - pose proof (exact_unwind_ok p (ran (FastUnwind (MAX_SIZE ts)) ts) [] H1 H2 H3)
        as E. rewrite app_nil_l in E.
      rewrite (fill_exact _ _ _ _ _ _ _ Hlen Heq Hskip E) by done.
      eexists _, _. split; [reflexivity|]. split; [|done].
      rewrite resize_take by (unfold vector_size; lia). by rewrite take_ge.
    - rewrite fill_fast by done.
      assert (fast_count p ts = depth p) as Hfc.
      { rewrite fast_count_in_int in * by lia. lia. }
      rewrite Hfc. eexists _, _. split; [reflexivity|]. split; [|done].
      unfold depth. rewrite Nat2Z.id.
      rewrite take_app_le by (rewrite length_take; lia).
      by rewrite take_take, Nat.min_id, take_ge. }
  eexists ts', _. split; [exact Hfill|]. simpl.
  split; [done|]. split; [done|]. split; [done|]. split; [done|].
  intros i Hi.
  replace (Z.max 0 (depth p - skip)) with (depth p - skip) by lia.
  destruct (index_captured p (depth p) skip data' i) as [E Hsome]; try lia.
  - unfold depth. rewrite Nat2Z.id, Htake. by rewrite take_ge.
  - by rewrite E.
Qed.

Lemma healthy_fill_captures_whole_stack_witness :
  ∃ ts' nt',
    NativeTrace.fill (healthy 10 [20; 30]) 1 (mkThread 2 [] [])
      (NativeTrace.new (mkThread 2 [] []))
    = Some (bool_decide (depth (healthy 10 [20; 30]) > 1), ts', nt')
    ∧ NativeTrace.d_size nt' = Z.max 0 (depth (healthy 10 [20; 30]) - 1)
    ∧ NativeTrace.d_skip nt' = 1
    ∧ take (length (frames (healthy 10 [20; 30]))) (NativeTrace.d_data nt')
      = frames (healthy 10 [20; 30])
    ∧ cerr ts' = []
    ∧ ∀ i, 0 ≤ i < depth (healthy 10 [20; 30]) - 1 →
        NativeTrace.index nt' i
        = frames (healthy 10 [20; 30]) !! Z.to_nat (depth (healthy 10 [20; 30]) - 1 - i)
        ∧ is_Some (NativeTrace.index nt' i).
Proof.
  apply (healthy_fill_captures_whole_stack (healthy 10 [20; 30]) 1 (mkThread 2 [] [])
           (NativeTrace.new (mkThread 2 [] []))).
  - vm_compute. reflexivity.
  - vm_compute. discriminate.
  - vm_compute. reflexivity.
  - lia.
  - simpl. lia.
  - simpl. lia.
  - intros j. simpl. lia.
Defined.

(** X5: how the capacity settles on a stack that does not fit. With no
    libunwind failure, a capture of a stack at least as deep as the
    capacity runs the exact unwind and leaves the capacity at
    [max (2 * old) depth]. A second capture of the same stack runs the
    exact unwind once more exactly when the stack was at least twice as
    deep as the old capacity (the new capacity then equals the depth,
    which reads as truncation again); after the second capture the
    capacity exceeds the depth. Both captures report [depth - skip]
    frames. *)
Theorem capacity_settles_within_two_captures p skip ts :
  0 ≤ unw_getcontext p → 0 ≤ unw_init_local p → (∀ j, 0 ≤ unw_get_reg p j) →
  0 ≤ MAX_SIZE ts ≤ depth p →
  2 * depth p ≤ INT_MAX →
  0 ≤ skip →
  ∃ b1 ts1 nt1 b2 ts2 nt2,
    capture p skip ts = Some (b1, ts1, nt1)
    ∧ capture p skip ts1 = Some (b2, ts2, nt2)
    ∧ MAX_SIZE ts1 = Z.max (2 * MAX_SIZE ts) (depth p)
    ∧ unwinds ts2
      = unwinds ts
          ++ [FastUnwind (MAX_SIZE ts); ExactUnwind; FastUnwind (MAX_SIZE ts1)]
          ++ (if decide (2 * MAX_SIZE ts ≤ depth p) then [ExactUnwind] else [])
    ∧ MAX_SIZE ts2
      = (if decide (2 * MAX_SIZE ts ≤ depth p) then 2 * depth p else 2 * MAX_SIZE ts)
    ∧ depth p < MAX_SIZE ts2
    ∧ NativeTrace.d_size nt1 = Z.max 0 (depth p - skip)
    ∧ NativeTrace.d_size nt2 = Z.max 0 (depth p - skip).
Proof.
  intros H1 H2 H3 HM Hd Hskip. unfold capture.
  assert (0 < depth p) as Hdpos by (unfold depth, frames; simpl; lia).
  assert (fast_count p ts = MAX_SIZE ts) as Hfc.
  { rewrite fast_count_in_int; lia. }
  pose proof (exact_unwind_ok p (ran (FastUnwind (MAX_SIZE ts)) ts) [] H1 H2 H3) as E.
  rewrite app_nil_l in E. change (vector_size (frames p)) with (depth p) in E.
  rewrite (fill_exact _ _ _ _ _ _ _ (new_buffer ts (proj1 HM)) Hfc Hskip E)
    by (unfold INT_MAX in Hd; lia).
  set (m1 := Z.max (2 * MAX_SIZE ts) (depth p)).
  set (ts1 := set_MAX_SIZE m1 (ran ExactUnwind (ran (FastUnwind (MAX_SIZE ts)) ts))).
  assert (MAX_SIZE ts1 = m1) as HM1 by done.
  assert (unwinds ts1 = unwinds ts ++ [FastUnwind (MAX_SIZE ts); ExactUnwind]) as HU1.
  { subst ts1. simpl. by rewrite <- app_assoc. }
  assert (0 ≤ MAX_SIZE ts1 ≤ INT_MAX) as Hint1 by (rewrite HM1; lia).
  assert (fast_count p ts1 = depth p) as Hfc1.
  { rewrite fast_count_in_int by done. lia. }
  destruct (decide (2 * MAX_SIZE ts ≤ depth p)) as [Hdeep | Hshallow].
  - assert (fast_count p ts1 = MAX_SIZE ts1) as Hagain by lia.
    pose proof (exact_unwind_ok p (ran (FastUnwind (MAX_SIZE ts1)) ts1) [] H1 H2 H3) as E1.
    rewrite app_nil_l in E1. change (vector_size (frames p)) with (depth p) in E1.
    pose proof (fill_exact _ skip _ _ _ _ _ (new_buffer ts1 (proj1 Hint1)) Hagain Hskip E1)
      as Hsecond.
    eexists _, ts1, _, _, _, _. split; [reflexivity|].
    split; [apply Hsecond; unfold INT_MAX in Hd; lia|].
    cbn [MAX_SIZE set_MAX_SIZE unwinds ran NativeTrace.d_size].
    split; [done|]. split; [by rewrite HU1, <- !app_assoc|].
    split; [lia|]. split; [lia|]. done.
  - assert (fast_count p ts1 ≠ MAX_SIZE ts1) as Hfits by lia.
    pose proof (fill_fast p skip ts1 _ (new_buffer ts1 (proj1 Hint1)) Hfits Hskip)
      as Hsecond.
    eexists _, ts1, _, _, _, _. split; [reflexivity|].
    split; [exact Hsecond|].
    cbn [MAX_SIZE set_MAX_SIZE unwinds ran NativeTrace.d_size].
    split; [done|]. split; [by rewrite HU1, <- !app_assoc|].
    split; [lia|]. split; [lia|]. by rewrite Hfc1.
Qed.

Lemma capacity_settles_within_two_captures_witness :
  ∃ b1 ts1 nt1 b2 ts2 nt2,
    capture (healthy 10 [20; 30; 40; 50]) 1 (mkThread 2 [] []) = Some (b1, ts1, nt1)
    ∧ capture (healthy 10 [20; 30; 40; 50]) 1 ts1 = Some (b2, ts2, nt2)
    ∧ MAX_SIZE ts1 = Z.max (2 * 2) (depth (healthy 10 [20; 30; 40; 50]))
    ∧ unwinds ts2
      = [] ++ [FastUnwind 2; ExactUnwind; FastUnwind (MAX_SIZE ts1)]
          ++ (if decide (2 * 2 ≤ depth (healthy 10 [20; 30; 40; 50]))
              then [ExactUnwind] else [])
    ∧ MAX_SIZE ts2
      = (if decide (2 * 2 ≤ depth (healthy 10 [20; 30; 40; 50]))
         then 2 * depth (healthy 10 [20; 30; 40; 50]) else 2 * 2)
    ∧ depth (healthy 10 [20; 30; 40; 50]) < MAX_SIZE ts2
    ∧ NativeTrace.d_size nt1 = Z.max 0 (depth (healthy 10 [20; 30; 40; 50]) - 1)
    ∧ NativeTrace.d_size nt2 = Z.max 0 (depth (healthy 10 [20; 30; 40; 50]) - 1).
Proof.
  apply (capacity_settles_within_two_captures (healthy 10 [20; 30; 40; 50]) 1
           (mkThread 2 [] [])).
  - simpl. lia.
  - simpl. lia.
  - intros j. simpl. lia.
  - vm_compute. split; discriminate.
  - vm_compute. discriminate.
  - lia.
Defined.

(** X6: when the exact unwind runs and [unw_get_reg] fails at some frame
    of the stack, the frames read before the failure are given up:
    [fill] returns [false] with no frame, the one line written to the
    diagnostic stream is the instruction-pointer warning, and the
    capacity is doubled all the same. *)
Theorem get_reg_failure_is_empty_capture p skip ts nt j :
  vector_size (NativeTrace.d_data nt) = MAX_SIZE ts →
  0 ≤ skip →
  fast_count p ts = MAX_SIZE ts →
  0 ≤ unw_getcontext p → 0 ≤ unw_init_local p →
  (j < length (frames p))%nat → unw_get_reg p j < 0 →
  ∃ ts' nt',
    NativeTrace.fill p skip ts nt = Some (false, ts', nt')
    ∧ NativeTrace.d_size nt' = 0
    ∧ NativeTrace.size nt' = 0
    ∧ cerr ts' = cerr ts ++ ["WARNING: Failed to get instruction pointer"]
    ∧ MAX_SIZE ts' = 2 * MAX_SIZE ts
    ∧ vector_size (NativeTrace.d_data nt') = 2 * MAX_SIZE ts.
Proof.
  intros Hlen Hskip Htrunc H1 H2 Hj Hfail.
  assert (0 ≤ MAX_SIZE ts) as Hpos by (unfold vector_size in Hlen; lia).
  assert (∃ data2,
    NativeTrace.exact_unwind p (ran (FastUnwind (MAX_SIZE ts)) ts) []
    = (0, warn "WARNING: Failed to get instruction pointer"
            (ran ExactUnwind (ran (FastUnwind (MAX_SIZE ts)) ts)), data2))
    as [data2 E].
  { unfold NativeTrace.exact_unwind. rewrite !decide_False by lia.
    apply exact_unwind_loop_fails. exists j. split; [|done].
    unfold frames in Hj. simpl in Hj. lia. }
  rewrite (fill_exact _ _ _ _ _ _ _ Hlen Htrunc Hskip E) by lia.
  rewrite bool_decide_eq_false_2 by lia.
  eexists _, _. split; [reflexivity|].
  cbn [MAX_SIZE set_MAX_SIZE cerr warn ran NativeTrace.d_size NativeTrace.d_data].
  unfold NativeTrace.size. cbn [NativeTrace.d_size].
  replace (Z.max 0 (0 - skip)) with 0 by lia.
  rewrite resize_length by lia.
  split; [done|]. split; [done|]. split; [done|]. split; lia.
Qed.

Lemma get_reg_failure_is_empty_capture_witness :
  ∃ ts' nt',
    NativeTrace.fill (mkPlatform 10 [20; 30] 0 0 (fun j => if decide (j = 1%nat) then -1 else 0))
      0 (mkThread 2 [] []) (NativeTrace.new (mkThread 2 [] []))
    = Some (false, ts', nt')
    ∧ NativeTrace.d_size nt' = 0
    ∧ NativeTrace.size nt' = 0
    ∧ cerr ts' = [] ++ ["WARNING: Failed to get instruction pointer"]
    ∧ MAX_SIZE ts' = 2 * 2
    ∧ vector_size (NativeTrace.d_data nt') = 2 * 2.
Proof.
  apply (get_reg_failure_is_empty_capture
           (mkPlatform 10 [20; 30] 0 0 (fun j => if decide (j = 1%nat) then -1 else 0))
           0 (mkThread 2 [] []) (NativeTrace.new (mkThread 2 [] [])) 1%nat).
  - vm_compute. reflexivity.
  - lia.
  - vm_compute. reflexivity.
  - simpl. lia.
  - simpl. lia.
  - simpl. lia.
  - vm_compute. reflexivity.
Defined.

(** X7: one [fill] writes at most one line to the diagnostic stream, and
    only when the exact unwind ran and failed; the capture is then empty
    and [fill] returns [false]. A [fill] that returns [true] has written
    nothing. *)
Theorem fill_warns_only_with_empty_capture p skip ts nt :
  vector_size (NativeTrace.d_data nt) = MAX_SIZE ts →
  0 ≤ skip →
  ∃ b ts' nt',
    NativeTrace.fill p skip ts nt = Some (b, ts', nt')
    ∧ (cerr ts' = cerr ts
       ∨ ∃ msg, cerr ts' = cerr ts ++ [msg]
                ∧ b = false ∧ NativeTrace.d_size nt' = 0
                ∧ fast_count p ts = MAX_SIZE ts)
    ∧ (b = true → cerr ts' = cerr ts).
Proof.
  intros Hlen Hskip.
  assert (∃ b ts' nt',
    NativeTrace.fill p skip ts nt = Some (b, ts', nt')
    ∧ (cerr ts' = cerr ts
       ∨ ∃ msg, cerr ts' = cerr ts ++ [msg]
                ∧ b = false ∧ NativeTrace.d_size nt' = 0
                ∧ fast_count p ts = MAX_SIZE ts))
    as (b & ts' & nt' & Hfill & Hcerr).
  { destruct (decide (fast_count p ts = MAX_SIZE ts)) as [Heq | Hne].
    - destruct (NativeTrace.exact_unwind p (ran (FastUnwind (MAX_SIZE ts)) ts) [])
        as [[d ts2] data2] eqn:E.
      pose proof (exact_unwind_spec _ _ _ _ _ _ E)
        as (_ & _ & [[-> [msg Hmsg]] | (Hd & _ & Hquiet)]).
      + rewrite (fill_exact _ _ _ _ _ _ _ Hlen Heq Hskip E) by lia.
        eexists _, _, _. split; [reflexivity|]. right. exists msg.
        cbn [cerr set_MAX_SIZE NativeTrace.d_size].
        split; [exact Hmsg|]. split; [apply bool_decide_eq_false_2; lia|].
        split; [lia|done].
      + pose proof (unwind_fits p ts _ Hlen) as Hu. simpl in Hu.
        destruct (fill_branches p skip ts nt _ _ _ Hu) as [Hexact _].
        rewrite resize_0 in Hexact. rewrite (Hexact Heq _ _ _ E).
        eexists _, _, _. split; [reflexivity|]. left. exact Hquiet.
    - rewrite fill_fast by done.
      eexists _, _, _. split; [reflexivity|]. by left. }
  exists b, ts', nt'. split; [done|]. split; [done|].
  intros Hb. destruct Hcerr as [Hq | (msg & _ & Hfalse & _)]; [done|].
  rewrite Hfalse in Hb. discriminate Hb.
Qed.

Lemma fill_warns_only_with_empty_capture_witness :
  ∃ b ts' nt',
    NativeTrace.fill (mkPlatform 10 [20; 30] 0 (-1) (fun _ => 0)) 0
      (mkThread 3 ["earlier line"] []) (NativeTrace.new (mkThread 3 ["earlier line"] []))
    = Some (b, ts', nt')
    ∧ (cerr ts' = ["earlier line"]
       ∨ ∃ msg, cerr ts' = ["earlier line"] ++ [msg]
                ∧ b = false ∧ NativeTrace.d_size nt' = 0
                ∧ fast_count (mkPlatform 10 [20; 30] 0 (-1) (fun _ => 0))
                    (mkThread 3 ["earlier line"] []) = 3)
    ∧ (b = true → cerr ts' = ["earlier line"]).
Proof.
  apply (fill_warns_only_with_empty_capture
           (mkPlatform 10 [20; 30] 0 (-1) (fun _ => 0)) 0
           (mkThread 3 ["earlier line"] [])
           (NativeTrace.new (mkThread 3 ["earlier line"] []))).
  - vm_compute. reflexivity.
  - lia.
Defined.

(** X8: the capacity is handed to libunwind as an [int]. Once it is
    above [INT_MAX] (and below [2 ^ 32]) the converted value is
    negative, the fast unwind stores nothing and its count, zero, never
    meets the capacity: whatever the stack, [fill] returns [false] with
    no frame, the exact unwind does not run and buffer, capacity and
    diagnostic stream stay as they were. *)
Theorem capacity_above_int_captures_nothing p skip ts nt :
  INT_MAX < MAX_SIZE ts < 2 ^ 32 →
  0 ≤ skip →
  NativeTrace.fill p skip ts nt
  = Some (false, ran (FastUnwind (MAX_SIZE ts)) ts,
          NativeTrace.mk 0 skip (NativeTrace.d_data nt)).
Proof.
  intros HM Hskip.
  assert (to_int (MAX_SIZE ts) = MAX_SIZE ts - 2 ^ 32) as Hneg.
  { unfold to_int, INT_MAX in *.
    replace (MAX_SIZE ts + 2 ^ 31) with (MAX_SIZE ts - 2 ^ 31 + 1 * 2 ^ 32) by lia.
    rewrite Z.mod_add by lia. rewrite Z.mod_small by lia. lia. }
  unfold NativeTrace.fill, NativeTrace.unwind, unw_backtrace.
  rewrite Hneg.
  replace (Z.to_nat (MAX_SIZE ts - 2 ^ 32)) with 0%nat by lia.
  rewrite Nat.min_0_l. rewrite decide_True by lia.
  rewrite take_0, drop_0, app_nil_l.
  change (to_size_t (Z.of_nat 0)) with 0.
  cbn [MAX_SIZE ran].
  rewrite decide_False by (unfold INT_MAX in HM; lia).
  rewrite decide_False by lia.
  by rewrite bool_decide_eq_false_2 by lia.
Qed.

Lemma capacity_above_int_captures_nothing_witness :
  NativeTrace.fill (healthy 10 [20; 30]) 0 (mkThread (2 ^ 31) [] [])
    (NativeTrace.mk 0 0 [0; 0; 0; 0])
  = Some (false, ran (FastUnwind (2 ^ 31)) (mkThread (2 ^ 31) [] []),
          NativeTrace.mk 0 0 [0; 0; 0; 0]).
Proof.
  apply (capacity_above_int_captures_nothing (healthy 10 [20; 30]) 0
           (mkThread (2 ^ 31) [] []) (NativeTrace.mk 0 0 [0; 0; 0; 0])).
  - vm_compute. split; reflexivity.
  - lia.
Defined.

(** X9: a trace whose [fill] returned [false] is empty: [begin()] and
    [end()] coincide, so walking the range visits nothing and reads
    nothing. [operator[]] has no such guard: index 0 addresses buffer
    position [skip - 1], below the kept range, when [skip] is positive,
    and a position outside the vector when [skip] is 0. *)
Theorem empty_trace_has_no_range p skip ts nt ts' nt' :
  vector_size (NativeTrace.d_data nt) = MAX_SIZE ts →
  MAX_SIZE ts < 2 ^ 64 →
  depth p < 2 ^ 64 →
  0 ≤ skip < 2 ^ 64 →
  NativeTrace.fill p skip ts nt = Some (false, ts', nt') →
  NativeTrace.size nt' = 0
  ∧ NativeTrace.begin nt' = NativeTrace.end_ nt'
  ∧ (∀ fuel, NativeTrace.iterate fuel nt' = Some [])
  ∧ (0 < skip →
     NativeTrace.index nt' 0 = NativeTrace.d_data nt' !! Z.to_nat (skip - 1))
  ∧ (skip = 0 → NativeTrace.index nt' 0 = None).
Proof.
  intros Hlen HM Hd Hskip Hfill.
  assert (0 ≤ skip) as Hs by lia.
  destruct (fill_spec p skip ts nt Hlen Hd Hs)
    as (n & ts1 & data' & _ & Hf & Hn & _ & Hcap & _ & _).
  destruct (fill_capacity p skip ts nt Hlen) as (b2 & ts2 & nt2 & Hf2 & _ & Hlen2 & _).
  assert (vector_size (NativeTrace.d_data nt') < 2 ^ 64) as Hbuf.
  { rewrite Hf2 in Hfill. injection Hfill as _ -> ->. rewrite Hlen2.
    pose proof (unwind_fits p ts _ Hlen) as Hu. simpl in Hu.
    destruct (fill_branches p skip ts nt _ _ _ Hu) as [Hexact Hfast].
    pose proof (fast_count_bounds p ts) as [Hrange _].
    destruct (decide (fast_count p ts = MAX_SIZE ts)) as [Heq | Hne].
    - destruct (NativeTrace.exact_unwind p (ran (FastUnwind (MAX_SIZE ts)) ts)
                  (resize 0 (take (Z.to_nat (fast_count p ts)) (frames p)
                             ++ drop (Z.to_nat (fast_count p ts)) (NativeTrace.d_data nt))))
        as [[d ts3] data3] eqn:E.
      rewrite (Hexact Heq _ _ _ eq_refl) in Hf2. injection Hf2 as _ <- _.
      cbn [MAX_SIZE set_MAX_SIZE].
      rewrite resize_0 in E.
      apply exact_unwind_spec in E as (_ & _ & [[-> _] | (-> & -> & _)]).
      + unfold INT_MAX in Hrange. lia.
      + rewrite app_nil_l. change (vector_size (frames p)) with (depth p).
        unfold INT_MAX in Hrange. lia.
    - rewrite (Hfast Hne) in Hf2. injection Hf2 as _ <- _. simpl. lia. }
  rewrite Hf in Hfill. injection Hfill as Hb _ <-.
  apply bool_decide_eq_false in Hb. rewrite decide_False by done.
  unfold NativeTrace.iterate, NativeTrace.size, NativeTrace.begin, NativeTrace.end_,
    NativeTrace.index.
  cbn [NativeTrace.d_size NativeTrace.d_skip NativeTrace.d_data] in *.
  split; [done|]. split; [lia|]. split.
  { intros fuel. replace (0 + skip + 0) with (0 + skip) by lia.
    destruct fuel; simpl; by rewrite decide_True. }
  split.
  - intros Hpos. replace (skip + 0 - 1 - 0) with (skip - 1) by lia.
    rewrite to_size_t_id by lia. unfold at_index. by rewrite decide_True by lia.
  - intros ->. change (to_size_t (0 + 0 - 1 - 0)) with (2 ^ 64 - 1).
    unfold at_index. rewrite decide_True by lia.
    apply lookup_ge_None. unfold vector_size in Hbuf. lia.
Qed.

Lemma empty_trace_has_no_range_witness :
  NativeTrace.size (NativeTrace.mk 0 3 [10; 20; 30; 0]) = 0
  ∧ NativeTrace.begin (NativeTrace.mk 0 3 [10; 20; 30; 0])
    = NativeTrace.end_ (NativeTrace.mk 0 3 [10; 20; 30; 0])
  ∧ (∀ fuel, NativeTrace.iterate fuel (NativeTrace.mk 0 3 [10; 20; 30; 0]) = Some [])
  ∧ (0 < 3 →
     NativeTrace.index (NativeTrace.mk 0 3 [10; 20; 30; 0]) 0
     = [10; 20; 30; 0] !! Z.to_nat (3 - 1))
  ∧ (3 = 0 → NativeTrace.index (NativeTrace.mk 0 3 [10; 20; 30; 0]) 0 = None).
Proof.
  apply (empty_trace_has_no_range (healthy 10 [20; 30]) 3 (mkThread 4 [] [])
           (NativeTrace.new (mkThread 4 [] [])) (mkThread 4 [] [FastUnwind 4])).
  - vm_compute. reflexivity.
  - vm_compute. reflexivity.
  - vm_compute. reflexivity.
  - vm_compute. split; [discriminate|reflexivity].
  - vm_compute. reflexivity.
Defined.

(** ** The hook entry points over a stream of calls *)

Lemma hooks_null
    (getTracker : Tracker.World → option Tracker.t)
    (trackAllocationImpl trackDeallocationImpl :
       Tracker.t → Z → Z → Allocator → Tracker.World → Tracker.World)
    (invalidate_module_cache_impl updateModuleCacheImpl :
       Tracker.t → Tracker.World → Tracker.World)
    (registerThreadNameImpl : Tracker.t → string → Tracker.World → Tracker.World)
    (cs : list Tracker.HookCall) (w : Tracker.World) :
  getTracker w = None →
  Tracker.hooks getTracker trackAllocationImpl trackDeallocationImpl
    invalidate_module_cache_impl updateModuleCacheImpl registerThreadNameImpl cs w
  = w.
Proof.
  intros Hnull. induction cs as [|c cs IH]; [done|].
  unfold Tracker.hooks in *. simpl.
  replace (Tracker.hook _ _ _ _ _ _ c w) with w; [exact IH|].
  destruct c; simpl;
    unfold Tracker.trackAllocation, Tracker.trackDeallocation,
      Tracker.invalidate_module_cache, Tracker.updateModuleCache,
      Tracker.registerThreadName;
    by rewrite Hnull.
Qed.

(** X11: the entry points read the instance pointer afresh at every
    call. Once a stream of hook calls has brought the process to a state
    where [getTracker] returns null (an implementation tore the tracker
    down, say), every call that follows in the stream is dropped: the
    longer stream ends in the state the shorter one reached. *)
Theorem hooks_after_tracker_is_gone
    (getTracker : Tracker.World → option Tracker.t)
    (trackAllocationImpl trackDeallocationImpl :
       Tracker.t → Z → Z → Allocator → Tracker.World → Tracker.World)
    (invalidate_module_cache_impl updateModuleCacheImpl :
       Tracker.t → Tracker.World → Tracker.World)
    (registerThreadNameImpl : Tracker.t → string → Tracker.World → Tracker.World)
    (cs1 cs2 : list Tracker.HookCall) (w : Tracker.World) :
  getTracker
    (Tracker.hooks getTracker trackAllocationImpl trackDeallocationImpl
       invalidate_module_cache_impl updateModuleCacheImpl registerThreadNameImpl
       cs1 w) = None →
  Tracker.hooks getTracker trackAllocationImpl trackDeallocationImpl
    invalidate_module_cache_impl updateModuleCacheImpl registerThreadNameImpl
    (cs1 ++ cs2) w
  = Tracker.hooks getTracker trackAllocationImpl trackDeallocationImpl
      invalidate_module_cache_impl updateModuleCacheImpl registerThreadNameImpl
      cs1 w.
Proof.
  intros Hnull. unfold Tracker.hooks at 1. rewrite foldl_app.
  by apply hooks_null.
Qed.

Lemma hooks_after_tracker_is_gone_witness :
  Tracker.hooks Tracker.getTracker write_allocation write_allocation
    (fun _ w => (Tracker.destroyTracker w).2) write_nothing write_thread_name
    ([Tracker.CallTrackAllocation 4096 16 1; Tracker.CallInvalidateModuleCache]
     ++ [Tracker.CallTrackAllocation 8192 32 1; Tracker.CallRegisterThreadName "main"])
    (Tracker.createTracker 1 true 10 false Tracker.boot).2
  = Tracker.hooks Tracker.getTracker write_allocation write_allocation
      (fun _ w => (Tracker.destroyTracker w).2) write_nothing write_thread_name
      [Tracker.CallTrackAllocation 4096 16 1; Tracker.CallInvalidateModuleCache]
      (Tracker.createTracker 1 true 10 false Tracker.boot).2.
Proof.
  apply (hooks_after_tracker_is_gone Tracker.getTracker write_allocation write_allocation
           (fun _ w => (Tracker.destroyTracker w).2) write_nothing write_thread_name
           [Tracker.CallTrackAllocation 4096 16 1; Tracker.CallInvalidateModuleCache]
           [Tracker.CallTrackAllocation 8192 32 1; Tracker.CallRegisterThreadName "main"]
           (Tracker.createTracker 1 true 10 false Tracker.boot).2).
  reflexivity.
Defined.

(** ** A bound on the growth of the capacity *)

Lemma fill_capacity_bound p skip ts nt :
  vector_size (NativeTrace.d_data nt) = MAX_SIZE ts →
  ∃ b ts' nt',
    NativeTrace.fill p skip ts nt = Some (b, ts', nt')
    ∧ MAX_SIZE ts ≤ MAX_SIZE ts'
    ∧ MAX_SIZE ts' ≤ Z.max (MAX_SIZE ts) (2 * depth p).
Proof.
  intros Hlen.
  pose proof (unwind_fits p ts _ Hlen) as Hu. simpl in Hu.
  destruct (fill_branches p skip ts nt _ _ _ Hu) as [Hexact Hfast].
  pose proof (fast_count_bounds p ts) as (Hrange & Hdp & _).
  assert (0 ≤ MAX_SIZE ts) as Hpos by (unfold vector_size in Hlen; lia).
  destruct (decide (fast_count p ts = MAX_SIZE ts)) as [Heq | Hne].
  - rewrite resize_0 in Hexact.
    destruct (NativeTrace.exact_unwind p (ran (FastUnwind (MAX_SIZE ts)) ts) [])
      as [[d ts2] data2] eqn:E.
    rewrite (Hexact Heq _ _ _ eq_refl).
    apply exact_unwind_spec in E as (_ & _ & [[-> _] | (-> & -> & _)]);
      eexists _, _, _; (split; [reflexivity|]); cbn [MAX_SIZE set_MAX_SIZE].
    + lia.
    + rewrite app_nil_l. change (vector_size (frames p)) with (depth p). lia.
  - rewrite (Hfast Hne). eexists _, _, _. split; [reflexivity|]. simpl. lia.
Qed.

(** X12: as long as [unw_step] reports no error, the capacity grows no
    further than twice the deepest stack captured: over any run of
    captures of stacks of depth at most [D], starting from any capacity,
    every capture completes and the final capacity is between the
    initial one and the larger of the initial capacity and [2 * D], also
    when [unw_getcontext], [unw_init_local] or [unw_get_reg] fail on the
    way. *)
Theorem capacity_is_bounded_by_twice_the_depth cs : ∀ ts D,
  0 ≤ MAX_SIZE ts →
  Forall (fun c => depth c.1 ≤ D) cs →
  ∃ ts',
    captures cs ts = Some ts'
    ∧ MAX_SIZE ts ≤ MAX_SIZE ts'
    ∧ MAX_SIZE ts' ≤ Z.max (MAX_SIZE ts) (2 * D).
Proof.
  induction cs as [|[p skip] cs IH]; intros ts D Hpos Hall; simpl.
  - exists ts. split; [done|]. lia.
  - apply Forall_cons in Hall as [Hp Hrest]. simpl in Hp.
    unfold capture.
    destruct (fill_capacity_bound p skip ts _ (new_buffer ts Hpos))
      as (b & ts1 & nt1 & -> & Hle & Hbound).
    destruct (IH ts1 D) as (ts' & -> & Hle' & Hbound'); [lia|done|].
    exists ts'. split; [done|]. lia.
Qed.

Lemma capacity_is_bounded_by_twice_the_depth_witness :
  ∃ ts',
    captures [(healthy 10 [20; 30], 0); (mkPlatform 1 [2; 3; 4; 5] (-1) 0 (fun _ => 0), 1)]
      (mkThread 2 [] []) = Some ts'
    ∧ 2 ≤ MAX_SIZE ts'
    ∧ MAX_SIZE ts' ≤ Z.max 2 (2 * 5).
Proof.
  apply (capacity_is_bounded_by_twice_the_depth
           [(healthy 10 [20; 30], 0); (mkPlatform 1 [2; 3; 4; 5] (-1) 0 (fun _ => 0), 1)]
           (mkThread 2 [] []) 5).
  - simpl. lia.
  - repeat constructor; vm_compute; discriminate.
Defined.
